(** * HumanCount: the orchestration loop of [main.py] and [subtract.py]

    A shallow embedding of the [App] class: the per-frame object detection
    with its background-contour exclusion loop, the heatmap accumulator, the
    two console alarms and the frame loop of [App.start].

    The object [self] and the local variables of [start] are a state that
    every statement reads and writes; an exception leaves the state as the
    statements before it made it.  The computer-vision back end (OpenCV),
    and the repository modules [utils] and [contours], are collaborators
    reached through calls; they are gathered in the interface [Vision], one
    field per call.  NumPy's [isin] and [delete] and Python's slices, [min]
    and [round] are written out, since the code's behaviour depends on
    them. *)

From Stdlib Require Import ZArith QArith Qround Qabs List Bool Lia Lqa.
Import ListNotations.
Open Scope Z_scope.

(** ** Python: exceptions, console output, and a monad for state and both *)

Module Py.

(** The two places that raise [ValueError]. *)
Inductive value_error : Type :=
| RaggedIsin   (* np.isin against an array of arrays of different lengths *)
| EmptyMin.    (* min() arg is an empty sequence *)

Inductive exn : Type :=
| IndexError (index size : Z) (* index i is out of bounds for axis 0 with size n *)
| ValueError (why : value_error)
| TypeError                   (* None assigned to a slice of an integer array *)
| CvError.                    (* cv2.error: a raster argument is None *)

(** What [print] writes, one constructor per call site of [main.py]. *)
Inductive line : Type :=
| ErrorLine (error : exn)                                  (* line 76 *)
| CountAlarm (people_count : nat) (max_people_allowed : Q) (* line 148 *)
| DistanceAlarm (found : Q) (min_distance_allowed : Q).    (* line 155 *)

Inductive outcome (A : Type) : Type :=
| Return (a : A)
| Raise (e : exn).
Arguments Return {A} a.
Arguments Raise {A} e.

(** A computation runs on a state [S] and the console written so far; it
    yields a value or an exception, together with the state and the console
    it leaves.  What was assigned or printed before an exception stays. *)
Definition M (S A : Type) : Type := S -> list line -> outcome A * S * list line.

Definition ret {S A} (a : A) : M S A := fun s out => (Return a, s, out).

Definition bind {S A B} (c : M S A) (k : A -> M S B) : M S B :=
  fun s out =>
    match c s out with
    | (Return a, s', out') => k a s' out'
    | (Raise e, s', out') => (Raise e, s', out')
    end.

Definition raise {S A} (e : exn) : M S A := fun s out => (Raise e, s, out).

Definition lift {S A} (o : outcome A) : M S A := fun s out => (o, s, out).

Definition print {S} (l : line) : M S unit := fun s out => (Return tt, s, out ++ [l]).

Definition get {S} : M S S := fun s out => (Return s, s, out).

Definition modify {S} (f : S -> S) : M S unit := fun s out => (Return tt, f s, out).

(** [try: c except IndexError as error: handler error] *)
Definition try_except_IndexError {S A} (c : M S A) (handler : exn -> M S A) : M S A :=
  fun s out =>
    match c s out with
    | (Raise (IndexError i n), s', out') => handler (IndexError i n) s' out'
    | r => r
    end.

(** [for x in l: body x] *)
Fixpoint for_each {S A} (l : list A) (body : A -> M S unit) : M S unit :=
  match l with
  | [] => ret tt
  | x :: rest => bind (body x) (fun _ => for_each rest body)
  end.

(** [min(l)]: the first least element; [ValueError] on an empty list. *)
Definition Qltb (x y : Q) : bool := negb (Qle_bool y x).

Definition min (l : list Q) : outcome Q :=
  match l with
  | [] => Raise (ValueError EmptyMin)
  | x :: rest => Return (fold_left (fun m y => if Qltb y m then y else m) rest x)
  end.

(** Rounding to the nearest integer, ties to the even one. *)
Definition round_half_even (x : Q) : Z :=
  let f := Qfloor x in
  let r := (x - inject_Z f)%Q in
  if Qltb r (1 # 2) then f
  else if Qltb (1 # 2) r then f + 1
  else if Z.even f then f else f + 1.

(** [round(x, ndigits)] *)
Definition round (x : Q) (ndigits : nat) : Q :=
  let scale := inject_Z (10 ^ Z.of_nat ndigits) in
  (inject_Z (round_half_even (x * scale)) / scale)%Q.

(** The bounds of the slice [lo:hi] on a sequence of length [n]:
    negative bounds count from the end, both are clamped to [0, n]. *)
Definition clamp_index (n : nat) (i : Z) : nat :=
  let i' := if i <? 0 then i + Z.of_nat n else i in
  Z.to_nat (Z.max 0 (Z.min (Z.of_nat n) i')).

Definition slice_get {A} (l : list A) (lo hi : Z) : list A :=
  let start := clamp_index (length l) lo in
  let stop := clamp_index (length l) hi in
  firstn (stop - start) (skipn start l).

(** [l[lo:hi] = new], for [new] of the slice's length. *)
Definition slice_set {A} (l : list A) (lo hi : Z) (new : list A) : list A :=
  let start := clamp_index (length l) lo in
  let stop := clamp_index (length l) hi in
  firstn start l ++ new ++ skipn (Nat.max start stop) l.

End Py.

Import Py.

Declare Scope py_scope.
Delimit Scope py_scope with py.
Notation "x <- c ;; k" := (bind c (fun x => k))
  (at level 61, c at next level, right associativity) : py_scope.
Notation "c ;;; k" := (bind c (fun _ => k))
  (at level 61, right associativity) : py_scope.

(** ** Rasters, contours and boxes *)

(** A grayscale raster: rows of 8-bit pixels. *)
Definition raster : Type := list (list Z).

(** A contour as OpenCV returns it: an integer array of shape (n, 1, 2). *)
Definition point : Type := (Z * Z)%type.
Definition contour : Type := list point.

(** A bounding box [(x, y, w, h)]. *)
Definition box : Type := (Z * Z * Z * Z)%type.

Definition color : Type := (Z * Z * Z)%type.

(** ** NumPy *)

Module Np.

(** An element of an array of dtype [object]. *)
Inductive obj : Type :=
| OInt (z : Z)
| OContour (c : contour).

(** The integers of a contour in row-major order. *)
Definition ints (c : contour) : list Z := flat_map (fun p => [fst p; snd p]) c.

Definition same_length (cs : list contour) : bool :=
  match cs with
  | [] => true
  | c :: rest => forallb (fun c' => Nat.eqb (length c') (length c)) rest
  end.

(** [np.array(cs, copy=True, dtype=object)], flattened: contours of one
    common length stack into a dense array of integers; contours of
    different lengths give a one-dimensional array of contour objects. *)
Definition ravel (cs : list contour) : list obj :=
  if same_length cs then map OInt (flat_map ints cs) else map OContour cs.

Fixpoint drop_at {A} (dead : list Z) (k : Z) (arr : list A) : list A :=
  match arr with
  | [] => []
  | x :: rest =>
      if existsb (Z.eqb k) dead then drop_at dead (k + 1) rest
      else x :: drop_at dead (k + 1) rest
  end.

(** [np.delete(arr, idx)] with [axis=None]: a NEW array without the
    elements of the flattened [arr] at the positions [idx]; an index
    outside [-n, n) raises [IndexError].  [arr] itself is not modified. *)
Definition delete {A} (arr : list A) (idx : list Z) : outcome (list A) :=
  let n := Z.of_nat (length arr) in
  match find (fun i => (i <? - n) || (n <=? i)) idx with
  | Some i => Raise (IndexError i n)
  | None => Return (drop_at (map (fun i => if i <? 0 then i + n else i) idx) 0 arr)
  end.

(** [np.any(np.isin(c, np.array(cs, dtype=object)))]: against a dense array,
    whether some integer of [c] is among the integers of [cs]; against an
    array of arrays of different lengths NumPy raises [ValueError]. *)
Definition any_isin (c : contour) (cs : list contour) : outcome bool :=
  if same_length cs
  then Return (existsb (fun z => existsb (Z.eqb z) (flat_map ints cs)) (ints c))
  else Raise (ValueError RaggedIsin).

(** [np.zeros_like(m, dtype=np.uint8)] *)
Definition zeros_like (m : raster) : raster := map (map (fun _ => 0)) m.

(** [np.ones(shape, dtype=np.uint8) * 255] for the shape of [m] *)
Definition ones_times_255 (m : raster) : raster := map (map (fun _ => 1 * 255)) m.

(** [(rows, columns)] of a raster *)
Definition shape (m : raster) : nat * nat := (length m, length (hd [] m)).

(** [m[y : y + h, x : x + w].size == 0]: the slice has no row or no column. *)
Definition empty_slice (m : raster) (b : box) : bool :=
  let '(x, y, w, h) := b in
  (length (slice_get m y (y + h)) =? 0)%nat ||
  (length (slice_get (hd [] m) x (x + w)) =? 0)%nat.

End Np.

(** ** OpenCV arithmetic on 8-bit rasters *)

Module Cv.

(** [cv::saturate_cast<uchar>] *)
Definition saturate_u8 (v : Z) : Z := Z.max 0 (Z.min 255 v).

Section AddWeighted.

(** The rounding of a real to an integer done by [saturate_cast].  The
    library rounds to nearest; how it breaks a tie depends on its
    floating-point evaluation, so the rounding is left open here and
    constrained, where a claim needs it, by [nearest]. *)
Variable rnd : Q -> Z.

Definition addWeighted_px (alpha beta gamma : Q) (p q : Z) : Z :=
  saturate_u8 (rnd (inject_Z p * alpha + inject_Z q * beta + gamma)%Q).

(** [cv2.addWeighted(src1, alpha, src2, beta, gamma)] on two rasters of
    one shape: [dst = saturate(src1*alpha + src2*beta + gamma)]. *)
Definition addWeighted (src1 : raster) (alpha : Q) (src2 : raster)
    (beta gamma : Q) : raster :=
  map (fun rows =>
         map (fun pq => addWeighted_px alpha beta gamma (fst pq) (snd pq))
             (combine (fst rows) (snd rows)))
      (combine src1 src2).

End AddWeighted.

Definition nearest (rnd : Q -> Z) : Prop :=
  forall q : Q, (Qabs (inject_Z (rnd q) - q) <= 1 # 2)%Q.

End Cv.

(** ** The heatmap ([App.draw_heatmap], [App.darken_heatmap]) *)

Section Heatmap.

Variable rnd : Q -> Z.

(** [self.heatmap[y : y + h, x : x + w] = res] *)
Definition assign_region (heatmap : raster) (y h x w : Z) (res : raster) : raster :=
  slice_set heatmap y (y + h)
    (map (fun rn => slice_set (fst rn) x (x + w) (snd rn))
         (combine (slice_get heatmap y (y + h)) res)).

(** The heatmap after lines 85 to 89 for one box.  The slices follow
    Python: a box that reaches outside the raster is clipped.  On an empty
    slice [addWeighted] gives [None] and line 89 raises before it writes, so
    that the heatmap is then the one before; that exception is raised in
    [self_draw_heatmap] below. *)
Definition draw_heatmap_box (heatmap : raster) (b : box) : raster :=
  let '(x, y, w, h) := b in
  let sub_img := map (fun row => slice_get row x (x + w)) (slice_get heatmap y (y + h)) in
  let white_rect := Np.ones_times_255 sub_img in
  let res := Cv.addWeighted rnd sub_img 1 white_rect (5 # 100) 0 in
  assign_region heatmap y h x w res.

(** The heatmap after the loop of [draw_heatmap] has run over all of
    [hog_boxes]. *)
Definition draw_heatmap (heatmap : raster) (hog_boxes : list box) : raster :=
  fold_left draw_heatmap_box hog_boxes heatmap.

Definition darken_heatmap (heatmap : raster) : raster :=
  let black_overlay := Np.zeros_like heatmap in
  Cv.addWeighted rnd heatmap (9 # 10) black_overlay (1 # 2) 0.

(** A sequence of heatmap operations, as the loop issues them. *)
Inductive heat_op : Type :=
| Darken
| Brighten (boxes : list box).

Definition heat_step (heatmap : raster) (op : heat_op) : raster :=
  match op with
  | Darken => darken_heatmap heatmap
  | Brighten boxes => draw_heatmap heatmap boxes
  end.

End Heatmap.

Definition pixels_in_range (m : raster) : Prop :=
  Forall (Forall (fun p => 0 <= p <= 255)) m.

(** *** The heatmap operations as the specification words them *)

Section HeatmapSpec.

Variable rnd : Q -> Z.

(** Darkening: every pixel scaled by 0.9, rounded. *)
Definition spec_darken_px (p : Z) : Z := rnd (inject_Z p * (9 # 10))%Q.

Definition spec_darken (heatmap : raster) : raster :=
  map (map spec_darken_px) heatmap.

(** Brightening: the constant 0.05 * 255 added, saturating at 255. *)
Definition spec_brighten_px (p : Z) : Z :=
  Z.min 255 (rnd (inject_Z p + (5 # 100) * 255)%Q).

Fixpoint mapi {A} (f : nat -> A -> A) (i : nat) (l : list A) : list A :=
  match l with
  | [] => []
  | x :: rest => f i x :: mapi f (S i) rest
  end.

(** Row (or column) [i] of [n] lies under the slice [lo : lo + len]. *)
Definition under (n : nat) (lo len : Z) (i : nat) : bool :=
  (clamp_index n lo <=? i)%nat && (i <? clamp_index n (lo + len))%nat.

(** A pixel operation applied under one box: to the pixels of the box's
    rows and columns, every other pixel being kept. *)
Definition map_box (f : Z -> Z) (heatmap : raster) (b : box) : raster :=
  let '(x, y, w, h) := b in
  mapi (fun i row =>
          if under (length heatmap) y h i
          then mapi (fun j p => if under (length row) x w j then f p else p) 0 row
          else row) 0 heatmap.

(** Brightening under one box. *)
Definition spec_brighten_box (heatmap : raster) (b : box) : raster :=
  map_box spec_brighten_px heatmap b.

End HeatmapSpec.

(** ** The collaborators of [App]

    One field per call that leaves [main.py]: OpenCV and the repository's
    own [utils] and [contours] modules.  The vision back end is
    deterministic here; the state of the MOG2 background model is passed
    explicitly. *)

Inductive retr_mode : Type :=
| RETR_DEFAULT   (* the detector's default, [work(img)] *)
| RETR_EXTERNAL.

(** The value of [average_distance], kept as the expression that line 139 or
    line 141 assigns: the sum and the division are done in floating point. *)
Inductive average : Type :=
| NoDistance                      (* 0 *)
| RoundedMean (distances : list Q). (* round(sum(distances) / len(distances), 1) *)

Class Vision : Type := {
  cframe : Type;       (* a colour raster *)
  mog2 : Type;         (* the state of [cv2.createBackgroundSubtractorMOG2] *)
  dbox : Type;         (* a box annotated with its distance to the camera *)
  cshape : cframe -> nat * nat;                      (* (rows, columns) *)
  cv_resize : cframe -> cframe;                      (* cv2.resize(f, (350, 300)) *)
  cv_resize_gray : raster -> raster;                 (* the same, on one channel *)
  cv_bgr2gray : cframe -> raster;                    (* cv2.cvtColor(f, COLOR_BGR2GRAY) *)
  cv_absdiff : raster -> raster -> raster;
  cv_round : Q -> Z;                                 (* rounding inside addWeighted *)
  cv_circle : cframe -> point -> Z -> color -> Z -> cframe;
  hog_detectMultiScale : cframe -> list box;         (* winStride, scale, padding fixed *)
  mog2_apply : mog2 -> raster -> mog2 * raster;      (* subtractor.apply(frame) *)
  contours_work : raster -> retr_mode -> bool -> list contour;
                                                     (* CountoursDetector(50, 255, THRESH_BINARY).work *)
  normalize_small_boxes : list contour -> Z -> list box;
  filter_bounding_boxes : list box -> list box -> Z -> list box;
  get_distance_to_camera : cframe -> list box -> Q -> Q -> Q -> list dbox;
  draw_hog_bounding_boxes : cframe -> list box -> color -> cframe;
  draw_bounding_boxes : cframe -> list box -> color -> cframe;
  write_people_count : cframe -> nat -> cframe;
  draw_distance_between_people : cframe -> list dbox -> Q -> Q -> cframe * list Q;
  write_average_people_distance : cframe -> average -> cframe
}.

(** ** [subtract.py] *)

Module BackgroundSubtractor.

(** [BackgroundSubtractor.work]: [return self.subtractor.apply(frame)] *)
Definition work `{Vision} (self : mog2) (frame : raster) : mog2 * raster :=
  mog2_apply self frame.

End BackgroundSubtractor.

(** ** [main.py]: the [App] object, the command line and the configuration *)

Section Application.

Context `{V : Vision}.

(** The fields of [App] that the loop reads or writes.  The capture is the
    stream given to [start]; the HOG descriptor and the contour detector
    are the [Vision] calls. *)
Record App : Type := mkApp {
  subtractor : mog2;
  background : raster;
  contours_background : list contour;
  frame : option cframe;
  gray : option raster;
  heatmap : raster
}.

Record Args : Type := mkArgs {
  show_hog_boxes : bool;
  no_filter_optimized_boxes : bool;
  use_mog2 : bool;
  no_alarm_count : bool;
  no_alarm_distance : bool;
  show : bool
}.

(** [conf["camera_conf"]] and the two module-level alarm thresholds. *)
Record Conf : Type := mkConf {
  height : Q;
  lower_angle : Q;
  upper_angle : Q;
  max_people_allowed : Q;
  min_distance_allowed : Q
}.

Definition set_subtractor (s : mog2) (a : App) : App :=
  mkApp s (background a) (contours_background a) (frame a) (gray a) (heatmap a).
Definition set_background (b : raster) (a : App) : App :=
  mkApp (subtractor a) b (contours_background a) (frame a) (gray a) (heatmap a).
Definition set_frame (f : option cframe) (a : App) : App :=
  mkApp (subtractor a) (background a) (contours_background a) f (gray a) (heatmap a).
Definition set_gray (g : option raster) (a : App) : App :=
  mkApp (subtractor a) (background a) (contours_background a) (frame a) g (heatmap a).
Definition set_heatmap (h : raster) (a : App) : App :=
  mkApp (subtractor a) (background a) (contours_background a) (frame a) (gray a) h.

(** [App.__init__], from the decoded background image and a fresh MOG2 model. *)
Definition init (image : cframe) (fresh : mog2) : App :=
  let background := cv_resize_gray (cv_bgr2gray image) in
  mkApp fresh background (contours_work background RETR_DEFAULT false)
        None None (Np.zeros_like background).

(** [App.do_hog_svm] *)
Definition do_hog_svm : M App (list box) :=
  (self <- get ;;
   match frame self with
   | Some f => ret (hog_detectMultiScale f)
   | None => raise CvError
   end)%py.

(** Lines 68 to 77 of [do_object_detection]: the loop headed
    "remove common contours".  The test of line 72 is outside the [try];
    [np.delete] returns a new array, which the statement on line 74 does not
    bind, so that [diff_contours] is the array made on line 68 all along. *)
Definition remove_common_contours {S} (contours_background : list contour)
    (contours_segmented : list contour) : M S (list contour) :=
  let diff_contours := contours_segmented in
  (for_each contours_background (fun contour =>
     hit <- lift (Np.any_isin contour diff_contours) ;;
     if hit then
       try_except_IndexError
         (_ <- lift (Np.delete (Np.ravel diff_contours) (Np.ints contour)) ;;
          ret tt)
         (fun error => print (ErrorLine error))
     else ret tt) ;;;
   ret diff_contours)%py.

(** [App.do_object_detection]; the windows of [args.show] are display only. *)
Definition do_object_detection (use_mog2 : bool) : M App (list box) :=
  (self <- get ;;
   match gray self with
   | None => raise CvError
   | Some g =>
       (if use_mog2 then
          modify (fun self =>
                    let sb := BackgroundSubtractor.work (subtractor self) g in
                    set_background (snd sb) (set_subtractor (fst sb) self))
        else ret tt) ;;;
       self <- get ;;
       let segmented := cv_absdiff g (background self) in
       let contours_segmented := contours_work segmented RETR_EXTERNAL true in
       diff_contours <- remove_common_contours (contours_background self)
                          contours_segmented ;;
       ret (normalize_small_boxes diff_contours 200)
   end)%py.

(** [App.draw_heatmap]: for a box whose slice of the heatmap is empty,
    [cv2.addWeighted] gives [None], and the assignment of line 89 raises
    [TypeError]; the boxes before it have been drawn. *)
Definition self_draw_heatmap (hog_boxes : list box) : M App unit :=
  for_each hog_boxes (fun box =>
    (self <- get ;;
     if Np.empty_slice (heatmap self) box then raise TypeError
     else modify (set_heatmap (draw_heatmap_box cv_round (heatmap self) box)))%py).

(** [App.darken_heatmap] *)
Definition self_darken_heatmap : M App unit :=
  modify (fun self => set_heatmap (darken_heatmap cv_round (heatmap self)) self).

(** The local variables of [start]. *)
Record Locals : Type := mkLocals {
  frame_counter : Z;
  hog_boxes : list box;
  small_boxes : list box;
  filtered_boxes : list box;
  distance_boxes : list dbox;
  distances : list Q;
  average_distance : average
}.

Record Machine : Type := mkMachine { app : App; loc : Locals }.

Definition with_app (f : App -> App) (m : Machine) : Machine :=
  mkMachine (f (app m)) (loc m).
Definition with_loc (f : Locals -> Locals) (m : Machine) : Machine :=
  mkMachine (app m) (f (loc m)).

Definition set_frame_counter (n : Z) (l : Locals) : Locals :=
  mkLocals n (hog_boxes l) (small_boxes l) (filtered_boxes l) (distance_boxes l)
           (distances l) (average_distance l).
Definition set_hog_boxes (b : list box) (l : Locals) : Locals :=
  mkLocals (frame_counter l) b (small_boxes l) (filtered_boxes l) (distance_boxes l)
           (distances l) (average_distance l).
Definition set_small_boxes (b : list box) (l : Locals) : Locals :=
  mkLocals (frame_counter l) (hog_boxes l) b (filtered_boxes l) (distance_boxes l)
           (distances l) (average_distance l).
Definition set_filtered_boxes (b : list box) (l : Locals) : Locals :=
  mkLocals (frame_counter l) (hog_boxes l) (small_boxes l) b (distance_boxes l)
           (distances l) (average_distance l).
Definition set_distance_boxes (b : list dbox) (l : Locals) : Locals :=
  mkLocals (frame_counter l) (hog_boxes l) (small_boxes l) (filtered_boxes l) b
           (distances l) (average_distance l).
Definition set_distances (d : list Q) (l : Locals) : Locals :=
  mkLocals (frame_counter l) (hog_boxes l) (small_boxes l) (filtered_boxes l)
           (distance_boxes l) d (average_distance l).
Definition set_average_distance (d : average) (l : Locals) : Locals :=
  mkLocals (frame_counter l) (hog_boxes l) (small_boxes l) (filtered_boxes l)
           (distance_boxes l) (distances l) d.

(** A statement of the loop body. *)
Definition stmt : Type := M Machine unit.

(** A method called on [self] from the loop. *)
Definition on_self {A} (c : M App A) : M Machine A :=
  fun m out =>
    match c (app m) out with
    | (o, self, out') => (o, mkMachine self (loc m), out')
    end.

(** A statement that draws on [self.frame]. *)
Definition on_frame (draw : cframe -> Locals -> cframe) : stmt :=
  (m <- get ;;
   match frame (app m) with
   | Some f => modify (with_app (set_frame (Some (draw f (loc m)))))
   | None => raise CvError
   end)%py.

Section Body.

Variable args : Args.
Variable conf : Conf.

(* self.frame = cv2.resize(self.frame, (350, 300)) *)
Definition line108 : stmt := on_frame (fun f _ => cv_resize f).

(* self.gray = cv2.cvtColor(self.frame, cv2.COLOR_BGR2GRAY) *)
Definition line109 : stmt :=
  (m <- get ;;
   match frame (app m) with
   | Some f => modify (with_app (set_gray (Some (cv_bgr2gray f))))
   | None => raise CvError
   end)%py.

(* hog_boxes = self.do_hog_svm() *)
Definition line111 : stmt :=
  (boxes <- on_self do_hog_svm ;;
   modify (with_loc (set_hog_boxes boxes)))%py.

(* small_boxes = self.do_object_detection(use_mog2=args.use_mog2) *)
Definition line112 : stmt :=
  (boxes <- on_self (do_object_detection (use_mog2 args)) ;;
   modify (with_loc (set_small_boxes boxes)))%py.

(* filtered_boxes = utils.filter_bounding_boxes(hog_boxes, small_boxes, 200) *)
Definition line114 : stmt :=
  modify (fun m =>
            with_loc (set_filtered_boxes
              (filter_bounding_boxes (hog_boxes (loc m)) (small_boxes (loc m)) 200)) m).

(* distance_boxes = utils.get_distance_to_camera(self.frame, filtered_boxes, ...) *)
Definition line115 : stmt :=
  (m <- get ;;
   match frame (app m) with
   | Some f =>
       modify (with_loc (set_distance_boxes
                 (get_distance_to_camera f (filtered_boxes (loc m))
                    (height conf) (lower_angle conf) (upper_angle conf))))
   | None => raise CvError
   end)%py.

(* if args.show_hog_boxes: utils.draw_hog_bounding_boxes(...) *)
Definition line123 : stmt :=
  if show_hog_boxes args
  then on_frame (fun f l => draw_hog_bounding_boxes f (hog_boxes l) (255, 0, 0))
  else ret tt.

(* if args.no_filter_optimized_boxes: ... else: ... *)
Definition line126 : stmt :=
  if no_filter_optimized_boxes args
  then on_frame (fun f l => draw_bounding_boxes f (small_boxes l) (0, 255, 0))
  else on_frame (fun f l => draw_bounding_boxes f (filtered_boxes l) (0, 255, 0)).

(* utils.write_people_count(self.frame, len(hog_boxes)) *)
Definition line131 : stmt :=
  on_frame (fun f l => write_people_count f (length (hog_boxes l))).

(* distances = utils.draw_distance_between_people(self.frame, distance_boxes, 1.70, ...) *)
Definition line134 : stmt :=
  (m <- get ;;
   match frame (app m) with
   | Some f =>
       let r := draw_distance_between_people f (distance_boxes (loc m))
                  (170 # 100) (min_distance_allowed conf) in
       modify (fun m => mkMachine (set_frame (Some (fst r)) (app m))
                                  (set_distances (snd r) (loc m)))
   | None => raise CvError
   end)%py.

(* average_distance = 0; if len(distances) > 0: average_distance = round(...) *)
Definition line139 : stmt :=
  modify (fun m =>
            let ds := distances (loc m) in
            with_loc (set_average_distance
                        (if (0 <? length ds)%nat then RoundedMean ds else NoDistance)) m).

(* utils.write_average_people_distance(self.frame, average_distance) *)
Definition line142 : stmt :=
  on_frame (fun f l => write_average_people_distance f (average_distance l)).

(* lines 145 to 151: the people-count alarm *)
Definition line145 : stmt :=
  (m <- get ;;
   if negb (no_alarm_count args) then
     let people_count := length (hog_boxes (loc m)) in
     if Qltb (max_people_allowed conf) (inject_Z (Z.of_nat people_count)) then
       print (CountAlarm people_count (max_people_allowed conf)) ;;;
       on_frame (fun f _ => cv_circle f (335, 265) 3 (0, 128, 255) 5)
     else ret tt
   else ret tt)%py.

(* lines 152 to 158: the people-distance alarm *)
Definition line152 : stmt :=
  (m <- get ;;
   if negb (no_alarm_distance args) && (0 <? length (distances (loc m)))%nat then
     min_distance <- lift (Py.min (distances (loc m))) ;;
     if Qltb min_distance (min_distance_allowed conf) then
       print (DistanceAlarm (round min_distance 2) (min_distance_allowed conf)) ;;;
       on_frame (fun f _ => cv_circle f (335, 285) 3 (0, 0, 255) 5)
     else ret tt
   else ret tt)%py.

(* lines 160 to 162: the heatmap, every tenth frame *)
Definition line160 : stmt :=
  (m <- get ;;
   if frame_counter (loc m) mod 10 =? 0 then
     on_self self_darken_heatmap ;;;
     on_self (self_draw_heatmap (small_boxes (loc m)))
   else ret tt)%py.

(** The loop body from line 108 on; lines 165 to 168 only display. *)
Definition body : list stmt :=
  [line108; line109; line111; line112; line114; line115; line123; line126;
   line131; line134; line139; line142; line145; line152; line160].

(** Running statements in sequence. *)
Fixpoint exec (ss : list stmt) : stmt :=
  match ss with
  | [] => ret tt
  | s :: rest => bind s (fun _ => exec rest)
  end.

(** [cv2.waitKey(1) & 0xFF == ord("q")] *)
Definition quit_key (key : Z) : bool := Z.land key 255 =? 113.

(** One turn of [while True]: the frame read on line 104 is [raw], the
    key polled on line 170 is [key].  The result tells whether the loop
    goes on. *)
Definition iteration (raw : cframe) (key : Z) : M Machine bool :=
  (modify (with_app (set_frame (Some raw))) ;;;
   exec body ;;;
   if quit_key key then ret false
   else modify (with_loc (fun l => set_frame_counter (frame_counter l + 1) l)) ;;;
        ret true)%py.

(** The loop of [start] over what the capture and the keyboard deliver;
    at the end of the stream [read] is false and the frame is [None]. *)
Fixpoint start_loop (stream : list (cframe * Z)) : M Machine unit :=
  match stream with
  | [] => modify (with_app (set_frame None))
  | (raw, key) :: rest =>
      (go_on <- iteration raw key ;;
       if go_on then start_loop rest else ret tt)%py
  end.

Definition locals0 : Locals := mkLocals 0 [] [] [] [] [] NoDistance.

(** [App.start], run on the object [self]. *)
Definition start (stream : list (cframe * Z)) (self : App)
  : list line -> outcome unit * Machine * list line :=
  start_loop stream (mkMachine self locals0).

End Body.

End Application.

(** ** Observations on a run *)

Section Observations.

Context `{V : Vision}.

(** The three parts of what a computation leaves. *)
Definition outcome_of {S A} (r : outcome A * S * list line) : outcome A := fst (fst r).
Definition state_of {S A} (r : outcome A * S * list line) : S := snd (fst r).
Definition console_of {S A} (r : outcome A * S * list line) : list line := snd r.

(** Line 72 raises: there is a baseline contour to test, and the contours of
    the frame are of different lengths. *)
Definition ragged_hit (contours_background diff_contours : list contour) : bool :=
  negb (Np.same_length diff_contours) &&
  match contours_background with [] => false | _ :: _ => true end.

(** The index errors that [np.delete] raises on line 74, in the order of
    the baseline contours that match. *)
Definition index_errors (contours_background diff_contours : list contour) : list exn :=
  flat_map (fun contour =>
              match Np.any_isin contour diff_contours with
              | Return true =>
                  match Np.delete (Np.ravel diff_contours) (Np.ints contour) with
                  | Raise e => [e]
                  | Return _ => []
                  end
              | _ => []
              end)
           contours_background.

Definition is_count_alarm (l : line) : bool :=
  match l with CountAlarm _ _ => true | _ => false end.

Definition is_distance_alarm (l : line) : bool :=
  match l with DistanceAlarm _ _ => true | _ => false end.

(** What the loop of [App.draw_heatmap] does to the heatmap: it stops with
    [TypeError] at the first box whose slice is empty. *)
Fixpoint draw_run (rnd : Q -> Z) (heatmap : raster) (boxes : list box)
  : outcome unit * raster :=
  match boxes with
  | [] => (Return tt, heatmap)
  | b :: rest =>
      if Np.empty_slice heatmap b then (Raise TypeError, heatmap)
      else draw_run rnd (draw_heatmap_box rnd heatmap b) rest
  end.

(** What lines 160 to 162 do to the heatmap. *)
Definition heat_update (rnd : Q -> Z) (counter : Z) (heatmap : raster)
    (boxes : list box) : outcome unit * raster :=
  if counter mod 10 =? 0 then draw_run rnd (darken_heatmap rnd heatmap) boxes
  else (Return tt, heatmap).

(** How a turn ends once its body has ended with [o] in [m]: an exception
    goes on; line 170 breaks on the quit key; line 173 counts the frame
    otherwise. *)
Definition turn_end (o : outcome unit) (key : Z) (m : Machine) : outcome bool * Machine :=
  match o with
  | Raise e => (Raise e, m)
  | Return _ =>
      if quit_key key then (Return false, m)
      else (Return true, with_loc (fun l => set_frame_counter (frame_counter l + 1) l) m)
  end.

(** The turns of the loop over a stream that does not run out: the result
    tells whether the loop is still going. *)
Fixpoint iterations (args : Args) (conf : Conf) (stream : list (cframe * Z))
  : M Machine bool :=
  match stream with
  | [] => ret true
  | (raw, key) :: rest =>
      (go_on <- iteration args conf raw key ;;
       if go_on then iterations args conf rest else ret false)%py
  end.

(** The background that line 58 compares the frame [raw] with, in a turn
    that starts on the object [a]. *)
Definition turn_background (args : Args) (raw : cframe) (a : App) : raster :=
  if use_mog2 args
  then snd (BackgroundSubtractor.work (subtractor a) (cv_bgr2gray (cv_resize raw)))
  else background a.

(** The contours that line 60 finds in that turn. *)
Definition turn_contours (args : Args) (raw : cframe) (a : App) : list contour :=
  contours_work (cv_absdiff (cv_bgr2gray (cv_resize raw)) (turn_background args raw a))
                RETR_EXTERNAL true.

(** Line 72 raises in that turn. *)
Definition turn_ragged (args : Args) (raw : cframe) (a : App) : bool :=
  ragged_hit (contours_background a) (turn_contours args raw a).

(** A raster of [rows] rows of [cols] pixels each. *)
Definition has_shape (rows cols : nat) (m : raster) : Prop :=
  length m = rows /\ Forall (fun row => length row = cols) m.

(** The frame, its grayscale derivative, the background model and the
    heatmap are all 350 pixels wide and 300 high. *)
Definition resolution (a : App) : Prop :=
  (exists f, frame a = Some f /\ cshape f = (300, 350)%nat) /\
  (exists g, gray a = Some g /\ has_shape 300 350 g) /\
  has_shape 300 350 (background a) /\
  has_shape 300 350 (heatmap a).

(** A statement that keeps the resolution, whether it returns or raises. *)
Definition keeps_resolution (s : stmt) : Prop :=
  forall m out, resolution (app m) -> resolution (app (state_of (s m out))).

(** The two rasters that outlive a turn of the loop have the resolution. *)
Definition rasters_sized (a : App) : Prop :=
  has_shape 300 350 (background a) /\ has_shape 300 350 (heatmap a).

(** What the vision calls promise about sizes: resizing gives 350 by 300,
    conversion, background subtraction and drawing keep the size. *)
Record VisionShapes : Prop := {
  resize_shape : forall f, cshape (cv_resize f) = (300, 350)%nat;
  resize_gray_shape : forall g, has_shape 300 350 (cv_resize_gray g);
  bgr2gray_shape : forall f rows cols,
      cshape f = (rows, cols) -> has_shape rows cols (cv_bgr2gray f);
  mog2_shape : forall s g rows cols,
      has_shape rows cols g -> has_shape rows cols (snd (mog2_apply s g));
  circle_shape : forall f c r k t, cshape (cv_circle f c r k t) = cshape f;
  draw_hog_shape : forall f bs k, cshape (draw_hog_bounding_boxes f bs k) = cshape f;
  draw_boxes_shape : forall f bs k, cshape (draw_bounding_boxes f bs k) = cshape f;
  write_count_shape : forall f n, cshape (write_people_count f n) = cshape f;
  draw_distance_shape : forall f ds p q,
      cshape (fst (draw_distance_between_people f ds p q)) = cshape f;
  write_average_shape : forall f q, cshape (write_average_people_distance f q) = cshape f
}.

(** Two machines that differ at most in the frame drawn on. *)
Definition same_but_frame (m m' : Machine) : Prop :=
  set_frame None (app m') = set_frame None (app m) /\
  (exists f, frame (app m') = Some f).

(** The frames of a stream that get a turn of the loop when no turn raises:
    those up to and including the first one whose key asks to quit. *)
Fixpoint processed (stream : list (cframe * Z)) : list (cframe * Z) :=
  match stream with
  | [] => []
  | (raw, key) :: rest =>
      if quit_key key then [(raw, key)] else (raw, key) :: processed rest
  end.

(** The frames before the first key that asks to quit: their turns run to
    line 173 when no turn raises. *)
Fixpoint completed (stream : list (cframe * Z)) : list (cframe * Z) :=
  match stream with
  | [] => []
  | (raw, key) :: rest =>
      if quit_key key then [] else (raw, key) :: completed rest
  end.

Definition no_quit (stream : list (cframe * Z)) : bool :=
  forallb (fun rk => negb (quit_key (snd rk))) stream.


(** What of the machine outlives a turn of the loop, the frame apart. *)
Definition persistent (m : Machine)
  : mog2 * raster * list contour * raster * Z :=
  (subtractor (app m), background (app m), contours_background (app m),
   heatmap (app m), frame_counter (loc m)).

(** What licenses a line on the console of a run of [a]. *)
Definition justified (args : Args) (conf : Conf) (a : App) (l : line) : Prop :=
  match l with
  | ErrorLine e => contours_background a <> [] /\ exists i n, e = IndexError i n
  | CountAlarm n limit =>
      no_alarm_count args = false /\ limit = max_people_allowed conf /\
      (limit < inject_Z (Z.of_nat n))%Q
  | DistanceAlarm _ limit =>
      no_alarm_distance args = false /\ limit = min_distance_allowed conf
  end.

(** The count-alarm lines of the turn of one frame, when the turn reaches
    line 145: they depend on the frame and the command line only. *)
Definition count_alarm_of (args : Args) (conf : Conf) (raw : cframe) : list line :=
  let people_count := length (hog_detectMultiScale (cv_resize raw)) in
  if negb (no_alarm_count args) &&
     Qltb (max_people_allowed conf) (inject_Z (Z.of_nat people_count))
  then [CountAlarm people_count (max_people_allowed conf)]
  else [].

(** The distance-alarm lines of a turn that has computed [ds]. *)
Definition distance_alarm_of (args : Args) (conf : Conf) (ds : list Q) : list line :=
  match ds with
  | [] => []
  | d :: rest =>
      let least := fold_left (fun m y => if Qltb y m then y else m) rest d in
      if negb (no_alarm_distance args) && Qltb least (min_distance_allowed conf)
      then [DistanceAlarm (round least 2) (min_distance_allowed conf)]
      else []
  end.

(** A raster with every pixel at 0. *)
Definition black (m : raster) : Prop := Forall (Forall (fun p => p = 0)) m.

(** Pixel [(i, j)] lies inside the box, by plain comparison. *)
Definition covers (b : box) (i j : nat) : bool :=
  let '(x, y, w, h) := b in
  (y <=? Z.of_nat i) && (Z.of_nat i <? y + h) &&
  (x <=? Z.of_nat j) && (Z.of_nat j <? x + w).

End Observations.

(** ** Deterministic stand-ins for the collaborators

    A vision back end that sees the boxes [people] and the contours [found]
    in every image and measures the distances [dists]; used to run the model
    on concrete inputs. *)

Module Fake.

Definition resize_nearest (rows cols : nat) (m : raster) : raster :=
  let r := length m in
  let c := length (hd [] m) in
  map (fun i => map (fun j => nth (j * c / cols) (nth (i * r / rows) m []) 0)
                    (seq 0 cols))
      (seq 0 rows).

Definition absdiff (a b : raster) : raster :=
  map (fun rows => map (fun pq => Z.abs (fst pq - snd pq))
                       (combine (fst rows) (snd rows)))
      (combine a b).

Definition bounding_rect (c : contour) : box :=
  let xs := map fst c in
  let ys := map snd c in
  let x0 := fold_left Z.min xs (hd 0 xs) in
  let y0 := fold_left Z.min ys (hd 0 ys) in
  let x1 := fold_left Z.max xs (hd 0 xs) in
  let y1 := fold_left Z.max ys (hd 0 ys) in
  (x0, y0, x1 - x0 + 1, y1 - y0 + 1).

Definition vision (people : list box) (found : list contour) (dists : list Q) : Vision :=
  {| cframe := raster;
     mog2 := nat;
     dbox := (box * Q)%type;
     cshape := Np.shape;
     cv_resize := resize_nearest 300 350;
     cv_resize_gray := resize_nearest 300 350;
     cv_bgr2gray := fun f => resize_nearest (length f) (length (hd [] f)) f;
     cv_absdiff := absdiff;
     cv_round := round_half_even;
     cv_circle := fun f _ _ _ _ => f;
     hog_detectMultiScale := fun _ => people;
     mog2_apply := fun s g => (S s, Np.zeros_like g);
     contours_work := fun _ _ _ => found;
     normalize_small_boxes := fun cs _ => map bounding_rect cs;
     filter_bounding_boxes := fun _ small _ => small;
     get_distance_to_camera := fun _ bs h _ _ => map (fun b => (b, h)) bs;
     draw_hog_bounding_boxes := fun f _ _ => f;
     draw_bounding_boxes := fun f _ _ => f;
     write_people_count := fun f _ => f;
     draw_distance_between_people := fun f _ _ _ => (f, dists);
     write_average_people_distance := fun f _ => f |}.

(** A contour of four points, found both in the still background and in
    the frame difference. *)
Definition square : contour := [(10, 10); (10, 20); (20, 20); (20, 10)].

(** A contour of three points. *)
Definition tri : contour := [(1, 1); (3, 1); (2, 2)].

Definition tiny : raster := [[0; 0]; [0; 0]].

(** A frame as a camera delivers it, 640 pixels wide and 480 high. *)
Definition vga : raster := repeat (repeat 0 640%nat) 480%nat.

(** A back end that sees nobody and finds [square] in every image. *)
Definition demo : Vision := vision [] [square] [].

Definition app0 : App := init (V := demo) tiny 0%nat.

(** The object of [demo] after lines 108 and 109 of the first turn, on the
    frame [tiny]. *)
Definition app1 : App :=
  set_gray (Some (cv_bgr2gray (Vision := demo) (cv_resize (Vision := demo) tiny)))
    (set_frame (Some (cv_resize (Vision := demo) tiny)) app0).

(** A back end that finds a contour of the single point (0, 1). *)
Definition dot : Vision := vision [] [[(0, 1)]] [].

(** A back end that sees three people and measures three distances. *)
Definition crowd : Vision :=
  vision [(0, 0, 5, 5); (10, 0, 5, 5); (20, 0, 5, 5)] [] [2 # 1; 12 # 10; 3 # 1].

(** The same crowd, with two contours of different lengths found in every
    image: in the still background and in the frame difference. *)
Definition ragged : Vision :=
  vision [(0, 0, 5, 5); (10, 0, 5, 5); (20, 0, 5, 5)] [square; tri]
         [2 # 1; 12 # 10; 3 # 1].

Definition ragged0 : App := init (V := ragged) tiny 0%nat.

(** The object of [ragged] after lines 108 and 109 of the first turn. *)
Definition ragged1 : App :=
  set_gray (Some (cv_bgr2gray (Vision := ragged) (cv_resize (Vision := ragged) tiny)))
    (set_frame (Some (cv_resize (Vision := ragged) tiny)) ragged0).

(** A back end that finds one contour of two points, past the right edge of
    the heatmap: its box is (400, 0, 5, 5). *)
Definition far : Vision := vision [] [[(400, 0); (404, 4)]] [].

Definition far0 : App := init (V := far) tiny 0%nat.

(** A back end that sees nobody and finds no contour. *)
Definition still : Vision := vision [] [] [].

Definition args0 : Args := mkArgs false false false false false false.
Definition args_mog2 : Args := mkArgs false false true false false false.
Definition conf0 : Conf := mkConf 3 (10 # 1) (60 # 1) 2 (15 # 10).

(** Another command line and configuration: boxes of the people detector
    shown, both alarms off, other thresholds and another camera. *)
Definition args1 : Args := mkArgs true true false true true false.
Definition conf1 : Conf := mkConf 5 (20 # 1) (70 # 1) 0 (1 # 1).

End Fake.

(** * Properties *)

(** ** Comparisons and [min] *)

Section OrderFacts.

Lemma Qltb_lt (x y : Q) : Qltb x y = true <-> (x < y)%Q.
Proof.
  unfold Qltb. rewrite negb_true_iff, <- not_true_iff_false, Qle_bool_iff.
  split; [apply Qnot_le_lt|apply Qlt_not_le].
Qed.

Lemma min_raises_iff_empty (l : list Q) :
  Py.min l = Raise (ValueError EmptyMin) <-> l = [].
Proof. destruct l; cbn; split; intros E; congruence. Qed.

Lemma filter_error_lines (p : line -> bool) (errs : list exn) :
  (forall e, p (ErrorLine e) = false) -> filter p (map ErrorLine errs) = [].
Proof.
  intros P. induction errs as [|e errs IH]; cbn; [reflexivity|now rewrite P].
Qed.

(** [min] returns an element of the list that no element is below. *)
Lemma least_is_a_lower_bound (ds : list Q) (d : Q) :
  let least := fold_left (fun m y => if Qltb y m then y else m) ds d in
  In least (d :: ds) /\ forall y, In y (d :: ds) -> (least <= y)%Q.
Proof.
  revert d. induction ds as [|y ds IH]; intros d; cbn [fold_left].
  - split; [now left|]. intros z [<-|[]]. apply Qle_refl.
  - destruct (IH (if Qltb y d then y else d)) as [I L]. cbn zeta in I, L.
    split.
    + destruct I as [I|I]; [|right; right; exact I].
      rewrite <- I. destruct (Qltb y d); [right; left|left]; reflexivity.
    + intros z Z.
      assert (Hy : (fold_left (fun m y0 => if Qltb y0 m then y0 else m) ds
                      (if Qltb y d then y else d) <= (if Qltb y d then y else d))%Q)
        by (apply L; now left).
      destruct (Qltb y d) eqn:C.
      * apply Qltb_lt in C.
        destruct Z as [<-|[<-|Z]].
        -- eapply Qle_trans; [exact Hy|]. now apply Qlt_le_weak.
        -- exact Hy.
        -- apply L. now right.
      * assert (C' : ~ (y < d)%Q) by (rewrite <- Qltb_lt, C; discriminate).
        apply Qnot_lt_le in C'.
        destruct Z as [<-|[<-|Z]].
        -- exact Hy.
        -- eapply Qle_trans; [exact Hy|exact C'].
        -- apply L. now right.
Qed.

End OrderFacts.

(** ** Slices and regions of a raster *)

Section RegionFacts.

Lemma mapi_ext {A} (f g : nat -> A -> A) (k : nat) (l : list A) :
  (forall i x, f i x = g i x) -> mapi f k l = mapi g k l.
Proof.
  intros E. revert k. induction l as [|x l IH]; intros k; cbn; [reflexivity|].
  now rewrite E, IH.
Qed.

Lemma mapi_id {A} (k : nat) (l : list A) : mapi (fun _ x => x) k l = l.
Proof. revert k. induction l as [|x l IH]; intros k; cbn; [|rewrite IH]; reflexivity. Qed.

Lemma mapi_shift {A} (f : nat -> A -> A) (k : nat) (l : list A) :
  mapi f (S k) l = mapi (fun i => f (S i)) k l.
Proof. revert k. induction l as [|x l IH]; intros k; cbn; [|rewrite IH]; reflexivity. Qed.

Lemma mapi_length {A} (f : nat -> A -> A) (k : nat) (l : list A) :
  length (mapi f k l) = length l.
Proof. revert k. induction l as [|x l IH]; intros k; cbn; [|rewrite IH]; reflexivity. Qed.

Lemma mapi_Forall {A} (P : A -> Prop) (f : nat -> A -> A) (k : nat) (l : list A) :
  (forall i x, P x -> P (f i x)) -> Forall P l -> Forall P (mapi f k l).
Proof.
  intros Pf F. revert k. induction F as [|x l Px F IH]; intros k; cbn; constructor; auto.
Qed.

Lemma mapi_ext_Forall {A} (P : A -> Prop) (f g : nat -> A -> A) (k : nat) (l : list A) :
  (forall i x, P x -> f i x = g i x) -> Forall P l -> mapi f k l = mapi g k l.
Proof.
  intros E F. revert k. induction F as [|x l Px F IH]; intros k; cbn; [reflexivity|].
  now rewrite E, IH.
Qed.

(** Rewriting a window of a list in place is a map that looks at the index. *)
Lemma mapi_window {A} (f : A -> A) (l : list A) :
  forall start stop : nat,
    firstn start l ++ map f (firstn (stop - start) (skipn start l))
      ++ skipn (Nat.max start stop) l
    = mapi (fun i x => if (start <=? i)%nat && (i <? stop)%nat then f x else x) 0 l.
Proof.
  induction l as [|x l IH]; intros start stop.
  - now rewrite firstn_nil, !skipn_nil, firstn_nil.
  - destruct start as [|a], stop as [|s]; cbn [firstn skipn Nat.sub Nat.max map List.app mapi].
    + cbn. f_equal. symmetry. erewrite mapi_ext; [apply mapi_id|].
      intros i y. cbn. reflexivity.
    + cbn [Nat.leb Nat.ltb andb]. f_equal.
      rewrite mapi_shift.
      rewrite (mapi_ext _ (fun i x => if (0 <=? i)%nat && (i <? s)%nat then f x else x))
        by (intros; reflexivity).
      rewrite <- (IH 0%nat s).
      cbn [firstn skipn List.app Nat.max]. now rewrite Nat.sub_0_r.
    + cbn [Nat.leb andb]. f_equal.
      rewrite mapi_shift.
      rewrite (mapi_ext _ (fun i x => if (a <=? i)%nat && (i <? 0)%nat then f x else x))
        by (intros; reflexivity).
      rewrite <- (IH a 0%nat).
      now rewrite Nat.sub_0_l, Nat.max_0_r.
    + cbn [Nat.leb andb]. f_equal.
      rewrite mapi_shift.
      rewrite (mapi_ext _ (fun i x => if (a <=? i)%nat && (i <? s)%nat then f x else x))
        by (intros; reflexivity).
      apply (IH a s).
Qed.

Lemma slice_set_map {A} (f : A -> A) (l : list A) (lo len : Z) :
  slice_set l lo (lo + len) (map f (slice_get l lo (lo + len)))
  = mapi (fun i x => if under (length l) lo len i then f x else x) 0 l.
Proof. unfold slice_set, slice_get, under. apply mapi_window. Qed.

Lemma combine_map_r {A B} (g : A -> B) (l : list A) :
  combine l (map g l) = map (fun x => (x, g x)) l.
Proof. induction l as [|x l IH]; cbn; [|rewrite IH]; reflexivity. Qed.

Variable rnd : Q -> Z.

(** [addWeighted] against an overlay of one constant value. *)
Lemma addWeighted_constant (src : raster) (alpha beta gamma : Q) (c : Z) :
  Cv.addWeighted rnd src alpha (map (map (fun _ => c)) src) beta gamma
  = map (map (fun p => Cv.addWeighted_px rnd alpha beta gamma p c)) src.
Proof.
  unfold Cv.addWeighted. rewrite combine_map_r, map_map.
  apply map_ext. intros row. cbn [fst snd].
  now rewrite combine_map_r, map_map.
Qed.

Lemma darken_heatmap_pointwise (heatmap : raster) :
  darken_heatmap rnd heatmap
  = map (map (fun p => Cv.addWeighted_px rnd (9 # 10) (1 # 2) 0 p 0)) heatmap.
Proof. apply addWeighted_constant. Qed.

Lemma draw_heatmap_box_pointwise (heatmap : raster) (b : box) :
  draw_heatmap_box rnd heatmap b
  = map_box (fun p => Cv.addWeighted_px rnd 1 (5 # 100) 0 p (1 * 255)) heatmap b.
Proof.
  destruct b as [[[x y] w] h]. unfold draw_heatmap_box, map_box, assign_region.
  unfold Np.ones_times_255. rewrite addWeighted_constant.
  rewrite map_map, combine_map_r, map_map. cbn [fst snd].
  rewrite (map_ext _ (fun row => mapi (fun j p =>
             if under (length row) x w j
             then Cv.addWeighted_px rnd 1 (5 # 100) 0 p (1 * 255) else p) 0 row)).
  - apply (slice_set_map _ heatmap y h).
  - intros row. apply slice_set_map.
Qed.

End RegionFacts.

(** ** Rounding and saturation *)

Section RoundingFacts.

Lemma saturate_u8_range (v : Z) : 0 <= Cv.saturate_u8 v <= 255.
Proof. unfold Cv.saturate_u8. lia. Qed.

Lemma saturate_u8_id (v : Z) : 0 <= v <= 255 -> Cv.saturate_u8 v = v.
Proof. unfold Cv.saturate_u8. lia. Qed.

Lemma round_half_even_nearest : Cv.nearest round_half_even.
Proof.
  intros q. unfold round_half_even.
  pose proof (Qfloor_le q) as Lo. pose proof (Qlt_floor q) as Hi.
  rewrite inject_Z_plus in Hi. change (inject_Z 1) with 1%Q in Hi.
  apply Qabs_Qle_condition.
  destruct (Qltb (q - inject_Z (Qfloor q)) (1 # 2)) eqn:A.
  - apply Qltb_lt in A. split; lra.
  - destruct (Qltb (1 # 2) (q - inject_Z (Qfloor q))) eqn:B.
    + apply Qltb_lt in B. rewrite inject_Z_plus. change (inject_Z 1) with 1%Q.
      split; lra.
    + assert (~ (q - inject_Z (Qfloor q) < 1 # 2)%Q) as A'
          by (rewrite <- Qltb_lt, A; discriminate).
      assert (~ (1 # 2 < q - inject_Z (Qfloor q))%Q) as B'
          by (rewrite <- Qltb_lt, B; discriminate).
      apply Qnot_lt_le in A', B'.
      destruct (Z.even (Qfloor q)); rewrite ?inject_Z_plus;
        change (inject_Z 1) with 1%Q; split; lra.
Qed.

Lemma Qltb_comp (x x' y : Q) : (x == x')%Q -> Qltb x y = Qltb x' y.
Proof.
  intros E. apply eq_true_iff_eq. rewrite !Qltb_lt. now rewrite E.
Qed.

Lemma Qltb_comp_r (x y y' : Q) : (y == y')%Q -> Qltb x y = Qltb x y'.
Proof.
  intros E. apply eq_true_iff_eq. rewrite !Qltb_lt. now rewrite E.
Qed.

Lemma round_half_even_comp (q q' : Q) :
  (q == q')%Q -> round_half_even q = round_half_even q'.
Proof.
  intros E. unfold round_half_even.
  rewrite (Qfloor_comp _ _ E).
  assert (R : (q - inject_Z (Qfloor q') == q' - inject_Z (Qfloor q'))%Q) by now rewrite E.
  now rewrite (Qltb_comp _ _ _ R), (Qltb_comp_r _ _ _ R).
Qed.

Variable rnd : Q -> Z.
Hypothesis rnd_nearest : Cv.nearest rnd.

Lemma nearest_lower (q : Q) (a : Z) : (inject_Z a - (1 # 2) < q)%Q -> a <= rnd q.
Proof.
  intros L. pose proof (rnd_nearest q) as N.
  apply Qabs_Qle_condition in N. destruct N as [N _].
  assert (I : (inject_Z (a - 1) < inject_Z (rnd q))%Q).
  { unfold Z.sub. rewrite inject_Z_plus. change (inject_Z (- (1))) with (- (1))%Q. lra. }
  rewrite <- Zlt_Qlt in I. lia.
Qed.

Lemma nearest_upper (q : Q) (b : Z) : (q < inject_Z b + (1 # 2))%Q -> rnd q <= b.
Proof.
  intros U. pose proof (rnd_nearest q) as N.
  apply Qabs_Qle_condition in N. destruct N as [_ N].
  assert (I : (inject_Z (rnd q) < inject_Z (b + 1))%Q).
  { rewrite inject_Z_plus. change (inject_Z 1) with 1%Q. lra. }
  rewrite <- Zlt_Qlt in I. lia.
Qed.

(** Blending toward white at weight 0.05 adds 13, up to 255. *)
Lemma brighten_px_saturates (p : Z) :
  0 <= p <= 255 ->
  Cv.addWeighted_px rnd 1 (5 # 100) 0 p (1 * 255) = Z.min 255 (p + 13).
Proof.
  intros R. unfold Cv.addWeighted_px.
  set (q := (inject_Z p * 1 + inject_Z (1 * 255) * (5 # 100) + 0)%Q).
  assert (E : (q == inject_Z p + (51 # 4))%Q).
  { subst q. change (inject_Z (1 * 255)) with 255%Q. ring. }
  assert (L : p + 13 <= rnd q).
  { apply nearest_lower. rewrite E, inject_Z_plus. change (inject_Z 13) with 13%Q. lra. }
  assert (U : rnd q <= p + 13).
  { apply nearest_upper. rewrite E, inject_Z_plus. change (inject_Z 13) with 13%Q. lra. }
  unfold Cv.saturate_u8. lia.
Qed.

(** Darkening stays inside the 8-bit range before saturation. *)
Lemma darken_px_unsaturated (p : Z) :
  0 <= p <= 255 ->
  0 <= rnd (inject_Z p * (9 # 10) + inject_Z 0 * (1 # 2) + 0)%Q <= 255.
Proof.
  intros [P0 P1].
  rewrite Zle_Qle in P0, P1.
  change (inject_Z 0) with 0%Q in *. change (inject_Z 255) with 255%Q in P1.
  split.
  - apply nearest_lower. change (inject_Z 0) with 0%Q. lra.
  - apply nearest_upper. change (inject_Z 255) with 255%Q. lra.
Qed.

End RoundingFacts.

(** ** The heatmap accumulator *)

Section HeatmapFacts.

Variable rnd : Q -> Z.

Lemma map_box_ext_in_range (f g : Z -> Z) (heatmap : raster) (b : box) :
  (forall p, 0 <= p <= 255 -> f p = g p) ->
  pixels_in_range heatmap ->
  map_box f heatmap b = map_box g heatmap b.
Proof.
  intros E R. destruct b as [[[x y] w] h]. unfold map_box.
  apply (mapi_ext_Forall (Forall (fun p => 0 <= p <= 255))); [|exact R].
  intros i row Rrow. destruct (under _ y h i); [|reflexivity].
  apply (mapi_ext_Forall (fun p => 0 <= p <= 255)); [|exact Rrow].
  intros j p Rp. destruct (under _ x w j); [now apply E|reflexivity].
Qed.

Lemma map_box_in_range (f : Z -> Z) (heatmap : raster) (b : box) :
  (forall p, 0 <= p <= 255 -> 0 <= f p <= 255) ->
  pixels_in_range heatmap ->
  pixels_in_range (map_box f heatmap b).
Proof.
  intros Pf R. destruct b as [[[x y] w] h]. unfold map_box.
  apply mapi_Forall; [|exact R].
  intros i row Rrow. destruct (under _ y h i); [|exact Rrow].
  apply mapi_Forall; [|exact Rrow].
  intros j p Rp. destruct (under _ x w j); [now apply Pf|exact Rp].
Qed.

Lemma addWeighted_px_range (alpha beta gamma : Q) (p q : Z) :
  0 <= Cv.addWeighted_px rnd alpha beta gamma p q <= 255.
Proof. apply saturate_u8_range. Qed.

Lemma darken_in_range (heatmap : raster) : pixels_in_range (darken_heatmap rnd heatmap).
Proof.
  rewrite darken_heatmap_pointwise. unfold pixels_in_range.
  apply Forall_map, Forall_forall. intros row _.
  apply Forall_map, Forall_forall. intros p _. apply addWeighted_px_range.
Qed.

Lemma draw_box_in_range (heatmap : raster) (b : box) :
  pixels_in_range heatmap -> pixels_in_range (draw_heatmap_box rnd heatmap b).
Proof.
  intros R. rewrite draw_heatmap_box_pointwise.
  apply map_box_in_range; [|exact R]. intros p _. apply addWeighted_px_range.
Qed.

Lemma draw_in_range (boxes : list box) (heatmap : raster) :
  pixels_in_range heatmap -> pixels_in_range (draw_heatmap rnd heatmap boxes).
Proof.
  unfold draw_heatmap. revert heatmap.
  induction boxes as [|b boxes IH]; intros heatmap R; cbn [fold_left];
    [exact R|apply IH, draw_box_in_range, R].
Qed.

(** C6. From a heatmap whose pixels are in [0, 255], any sequence of
    darkening and brightening steps leaves every pixel in [0, 255]; a
    brightened pixel is the old one plus 13 capped at 255, never a value
    wrapped modulo 256, and a darkened pixel is in [0, 255]. *)
Theorem heatmap_pixels_stay_in_range (heatmap : raster) (ops : list heat_op) :
  Cv.nearest rnd ->
  pixels_in_range heatmap ->
  pixels_in_range (fold_left (heat_step rnd) ops heatmap) /\
  (forall b, draw_heatmap_box rnd heatmap b
             = map_box (fun p => Z.min 255 (p + 13)) heatmap b) /\
  (forall p, 0 <= p <= 255 ->
             Cv.addWeighted_px rnd 1 (5 # 100) 0 p (1 * 255) = Z.min 255 (p + 13) /\
             0 <= Cv.addWeighted_px rnd (9 # 10) (1 # 2) 0 p 0 <= 255).
Proof.
  intros N R. split; [|split].
  - revert heatmap R. induction ops as [|op ops IH]; intros heatmap R; cbn [fold_left].
    + exact R.
    + apply IH. destruct op as [|boxes]; cbn [heat_step].
      * apply darken_in_range.
      * now apply draw_in_range.
  - intros b. rewrite draw_heatmap_box_pointwise.
    apply map_box_ext_in_range; [|exact R].
    intros p Rp. now apply brighten_px_saturates.
  - intros p Rp. split; [now apply brighten_px_saturates|apply addWeighted_px_range].
Qed.

(** C7. On a heatmap with pixels in [0, 255], the weighted add of 0.9
    times the heatmap and 0.5 times a black overlay is the scaling of each
    pixel by 0.9, rounded; the blend toward white at weight 0.05 is the
    addition of 0.05 * 255 to each pixel under the box, rounded and capped
    at 255; and so for the boxes of a frame one after the other. *)
Theorem heatmap_steps_are_scaling_and_capped_addition (heatmap : raster) :
  Cv.nearest rnd ->
  (forall q q' : Q, (q == q')%Q -> rnd q = rnd q') ->
  pixels_in_range heatmap ->
  darken_heatmap rnd heatmap = spec_darken rnd heatmap /\
  (forall b, draw_heatmap_box rnd heatmap b = spec_brighten_box rnd heatmap b) /\
  (forall boxes, draw_heatmap rnd heatmap boxes
                 = fold_left (spec_brighten_box rnd) boxes heatmap).
Proof.
  intros N C R.
  assert (B : forall hm b, pixels_in_range hm ->
                draw_heatmap_box rnd hm b = spec_brighten_box rnd hm b).
  { intros hm b Rhm. rewrite draw_heatmap_box_pointwise. unfold spec_brighten_box.
    apply map_box_ext_in_range; [|exact Rhm].
    intros p Rp. rewrite (brighten_px_saturates rnd N p Rp).
    unfold spec_brighten_px.
    assert (E : (inject_Z p + (5 # 100) * 255 == inject_Z p + (51 # 4))%Q) by ring.
    rewrite (C _ _ E).
    assert (L : p + 13 <= rnd (inject_Z p + (51 # 4))%Q).
    { apply (nearest_lower rnd N). rewrite inject_Z_plus.
      change (inject_Z 13) with 13%Q. lra. }
    assert (U : rnd (inject_Z p + (51 # 4))%Q <= p + 13).
    { apply (nearest_upper rnd N). rewrite inject_Z_plus.
      change (inject_Z 13) with 13%Q. lra. }
    lia. }
  split; [|split].
  - rewrite darken_heatmap_pointwise. unfold spec_darken.
    apply map_ext_Forall. revert R. apply Forall_impl. intros row Rrow.
    apply map_ext_Forall. revert Rrow. apply Forall_impl. intros p Rp.
    unfold Cv.addWeighted_px, spec_darken_px.
    rewrite (saturate_u8_id _ (darken_px_unsaturated rnd N p Rp)).
    apply C. change (inject_Z 0) with 0%Q. ring.
  - intros b. now apply B.
  - intros boxes. unfold draw_heatmap. revert heatmap R.
    induction boxes as [|b boxes IH]; intros heatmap R; cbn [fold_left]; [reflexivity|].
    rewrite <- (B heatmap b R). apply IH. now apply draw_box_in_range.
Qed.

End HeatmapFacts.

(** The two heatmap theorems at a small raster, with rounding to even. *)
Lemma heatmap_pixels_stay_in_range_witness :
  Cv.nearest round_half_even /\
  pixels_in_range [[0; 250]; [15; 255]] /\
  pixels_in_range
    (fold_left (heat_step round_half_even)
       [Darken; Brighten [(1, 0, 1, 2)]; Brighten [(0, 0, 2, 2)]]
       [[0; 250]; [15; 255]]).
Proof.
  assert (R : pixels_in_range [[0; 250]; [15; 255]])
    by (repeat constructor; lia).
  split; [exact round_half_even_nearest|]. split; [exact R|].
  exact (proj1 (heatmap_pixels_stay_in_range round_half_even [[0; 250]; [15; 255]]
                  [Darken; Brighten [(1, 0, 1, 2)]; Brighten [(0, 0, 2, 2)]]
                  round_half_even_nearest R)).
Defined.

Lemma heatmap_steps_are_scaling_and_capped_addition_witness :
  pixels_in_range [[0; 250]; [15; 255]] /\
  darken_heatmap round_half_even [[0; 250]; [15; 255]]
  = spec_darken round_half_even [[0; 250]; [15; 255]] /\
  draw_heatmap_box round_half_even [[0; 250]; [15; 255]] (1, 0, 1, 2)
  = spec_brighten_box round_half_even [[0; 250]; [15; 255]] (1, 0, 1, 2).
Proof.
  assert (R : pixels_in_range [[0; 250]; [15; 255]])
    by (repeat constructor; lia).
  split; [exact R|].
  destruct (heatmap_steps_are_scaling_and_capped_addition round_half_even
              [[0; 250]; [15; 255]] round_half_even_nearest round_half_even_comp R)
    as (D & B & _).
  split; [exact D|exact (B (1, 0, 1, 2))].
Defined.

Example darken_then_brighten :
  fold_left (heat_step round_half_even)
    [Darken; Brighten [(1, 0, 1, 2)]; Brighten [(0, 0, 2, 2)]]
    [[0; 250]; [15; 255]]
  = [[13; 251]; [27; 255]].
Proof. vm_compute. reflexivity. Qed.


(** ** More on the heatmap *)

Section HeatmapMore.

Variable rnd : Q -> Z.
Hypothesis rnd_nearest : Cv.nearest rnd.

Lemma Forall2_map_r {A} (P : A -> Prop) (R : A -> A -> Prop) (f : A -> A) (l : list A) :
  (forall x, P x -> R x (f x)) -> Forall P l -> Forall2 R l (map f l).
Proof. intros H F. induction F; cbn; constructor; auto. Qed.

Lemma Forall2_map_rows {A} (P : A -> Prop) (R : list A -> list A -> Prop)
    (f : list A -> list A) (m : list (list A)) :
  (forall row, Forall P row -> R row (f row)) ->
  Forall (Forall P) m -> Forall2 R m (map f m).
Proof. intros H F. induction F; cbn; constructor; auto. Qed.

(** A darkened pixel is the nearest integer to nine tenths of the old one. *)
Lemma darken_px_tenths (p : Z) :
  0 <= p <= 255 ->
  let p' := Cv.addWeighted_px rnd (9 # 10) (1 # 2) 0 p 0 in
  9 * p - 5 <= 10 * p' <= 9 * p + 5.
Proof.
  intros R. cbn zeta. unfold Cv.addWeighted_px.
  rewrite (saturate_u8_id _ (darken_px_unsaturated rnd rnd_nearest p R)).
  set (q := (inject_Z p * (9 # 10) + inject_Z 0 * (1 # 2) + 0)%Q).
  pose proof (rnd_nearest q) as N. apply Qabs_Qle_condition in N.
  assert (E : (q == inject_Z p * (9 # 10))%Q)
    by (subst q; change (inject_Z 0) with 0%Q; ring).
  destruct N as [N1 N2]. clearbody q.
  split; rewrite Zle_Qle.
  - unfold Z.sub. rewrite inject_Z_plus, !inject_Z_mult.
    change (inject_Z 9) with 9%Q. change (inject_Z 10) with 10%Q.
    change (inject_Z (- (5))) with (- (5))%Q. lra.
  - rewrite inject_Z_plus, !inject_Z_mult.
    change (inject_Z 9) with 9%Q. change (inject_Z 10) with 10%Q.
    change (inject_Z 5) with 5%Q. lra.
Qed.

(** X11. Darkening never raises a pixel, lowers every pixel from 6 up, and
    leaves the pixels 0 to 4 as they are: the decay stops short of black. *)
Theorem darkening_lowers_but_stalls_below_five (heatmap : raster) :
  pixels_in_range heatmap ->
  Forall2 (Forall2 (fun p p' => 9 * p - 5 <= 10 * p' <= 9 * p + 5 /\
                                p' <= p /\
                                (p <= 4 -> p' = p) /\
                                (6 <= p -> p' < p)))
          heatmap (darken_heatmap rnd heatmap).
Proof.
  intros R. rewrite darken_heatmap_pointwise.
  apply (Forall2_map_rows (fun p => 0 <= p <= 255)); [|exact R].
  intros row Rrow. apply (Forall2_map_r (fun p => 0 <= p <= 255)); [|exact Rrow].
  intros p Rp. pose proof (darken_px_tenths p Rp) as T. cbn zeta in T.
  repeat split; lia.
Qed.

Lemma mapi_mapi {A} (f g : nat -> A -> A) (k : nat) (l : list A) :
  mapi f k (mapi g k l) = mapi (fun i x => f i (g i x)) k l.
Proof. revert k. induction l as [|x l IH]; intros k; cbn; [|rewrite IH]; reflexivity. Qed.

Lemma mapi_ext_bounded {A} (f g : nat -> A -> A) (k : nat) (l : list A) :
  (forall i x, (k <= i < k + length l)%nat -> f i x = g i x) ->
  mapi f k l = mapi g k l.
Proof.
  revert k. induction l as [|x l IH]; intros k E; cbn; [reflexivity|].
  rewrite E by (cbn; lia). f_equal. apply IH.
  intros i y B. apply E. cbn. lia.
Qed.

Lemma map_box_compose (f g : Z -> Z) (heatmap : raster) (b : box) :
  map_box f (map_box g heatmap b) b = map_box (fun p => f (g p)) heatmap b.
Proof.
  destruct b as [[[x y] w] h]. unfold map_box.
  rewrite mapi_length, mapi_mapi. apply mapi_ext. intros i row.
  destruct (under (length heatmap) y h i); [|reflexivity].
  rewrite mapi_length, mapi_mapi. apply mapi_ext. intros j p.
  destruct (under (length row) x w j); reflexivity.
Qed.

Lemma map_box_id (heatmap : raster) (b : box) : map_box (fun p => p) heatmap b = heatmap.
Proof.
  destruct b as [[[x y] w] h]. unfold map_box.
  erewrite mapi_ext; [apply mapi_id|].
  intros i row. destruct (under _ y h i); [|reflexivity].
  erewrite mapi_ext; [apply mapi_id|].
  intros j p. destruct (under _ x w j); reflexivity.
Qed.

(** X12. A box drawn [n] times adds 13 [n] times to the pixels under it, up to
    255; twenty times make any pixel white. *)
Theorem repeated_box_accumulates_to_white (heatmap : raster) (b : box) (n : nat) :
  pixels_in_range heatmap ->
  draw_heatmap rnd heatmap (repeat b n)
  = map_box (fun p => Z.min 255 (p + 13 * Z.of_nat n)) heatmap b /\
  draw_heatmap rnd heatmap (repeat b 20) = map_box (fun _ => 255) heatmap b.
Proof.
  assert (B : forall hm, pixels_in_range hm ->
                draw_heatmap_box rnd hm b = map_box (fun p => Z.min 255 (p + 13)) hm b).
  { intros hm R. rewrite draw_heatmap_box_pointwise.
    apply map_box_ext_in_range; [|exact R].
    intros p Rp. now apply brighten_px_saturates. }
  assert (G : forall k hm, pixels_in_range hm ->
                draw_heatmap rnd hm (repeat b k)
                = map_box (fun p => Z.min 255 (p + 13 * Z.of_nat k)) hm b).
  { induction k as [|k IH]; intros hm R.
    - unfold draw_heatmap. cbn [repeat fold_left].
      rewrite <- (map_box_id hm b) at 1.
      apply map_box_ext_in_range; [|exact R]. intros p Rp. lia.
    - unfold draw_heatmap in *. cbn [repeat fold_left].
      rewrite IH by now apply draw_box_in_range.
      rewrite (B hm R), map_box_compose.
      apply map_box_ext_in_range; [|exact R]. intros p Rp. lia. }
  intros R. split; [now apply G|].
  rewrite (G 20%nat heatmap R).
  apply map_box_ext_in_range; [|exact R]. intros p Rp. lia.
Qed.

Lemma under_in_bounds (n : nat) (lo len : Z) (i : nat) :
  0 <= lo -> 0 <= len -> (i < n)%nat ->
  under n lo len i = (lo <=? Z.of_nat i) && (Z.of_nat i <? lo + len).
Proof.
  intros L W I. unfold under, clamp_index.
  destruct (lo <? 0) eqn:A; [apply Z.ltb_lt in A; lia|].
  destruct (lo + len <? 0) eqn:B; [apply Z.ltb_lt in B; lia|].
  apply eq_true_iff_eq.
  rewrite !andb_true_iff, Nat.leb_le, Nat.ltb_lt, Z.leb_le, Z.ltb_lt. lia.
Qed.

(** The pixels that one box changes, by plain comparison of indices. *)
Lemma box_pixels_by_comparison (heatmap : raster)
    (x y w h : Z) :
  pixels_in_range heatmap ->
  0 <= x -> 0 <= y -> 0 <= w -> 0 <= h ->
  draw_heatmap_box rnd heatmap (x, y, w, h)
  = mapi (fun i row =>
            mapi (fun j p => if covers (x, y, w, h) i j then Z.min 255 (p + 13) else p)
                 0 row)
         0 heatmap.
Proof.
  intros R X Y W H. rewrite draw_heatmap_box_pointwise.
  rewrite (map_box_ext_in_range _ (fun p => Z.min 255 (p + 13)) heatmap (x, y, w, h))
    by (try exact R; intros p Rp; now apply brighten_px_saturates).
  unfold map_box, covers. apply mapi_ext_bounded. intros i row Bi.
  rewrite (under_in_bounds _ y h i Y H) by lia.
  destruct ((y <=? Z.of_nat i) && (Z.of_nat i <? y + h)); cbn [andb].
  - apply mapi_ext_bounded. intros j p Bj.
    now rewrite (under_in_bounds _ x w j X W) by lia.
  - symmetry. apply mapi_id.
Qed.

End HeatmapMore.

(** The heatmap theorems above at a small raster, with rounding to even. *)
Lemma darkening_lowers_but_stalls_below_five_witness :
  pixels_in_range [[0; 4]; [15; 255]] /\
  darken_heatmap round_half_even [[0; 4]; [15; 255]] = [[0; 4]; [14; 230]] /\
  Forall2 (Forall2 (fun p p' => 9 * p - 5 <= 10 * p' <= 9 * p + 5 /\
                                p' <= p /\
                                (p <= 4 -> p' = p) /\
                                (6 <= p -> p' < p)))
          [[0; 4]; [15; 255]] (darken_heatmap round_half_even [[0; 4]; [15; 255]]).
Proof.
  assert (R : pixels_in_range [[0; 4]; [15; 255]]) by (repeat constructor; lia).
  split; [exact R|]. split; [reflexivity|].
  exact (darkening_lowers_but_stalls_below_five round_half_even round_half_even_nearest
           [[0; 4]; [15; 255]] R).
Defined.

Lemma repeated_box_accumulates_to_white_witness :
  pixels_in_range [[0; 250]; [15; 255]] /\
  draw_heatmap round_half_even [[0; 250]; [15; 255]] (repeat (0, 0, 1, 2) 3)
  = [[39; 250]; [54; 255]] /\
  draw_heatmap round_half_even [[0; 250]; [15; 255]] (repeat (0, 0, 1, 2) 3)
  = map_box (fun p => Z.min 255 (p + 13 * Z.of_nat 3)) [[0; 250]; [15; 255]] (0, 0, 1, 2).
Proof.
  assert (R : pixels_in_range [[0; 250]; [15; 255]]) by (repeat constructor; lia).
  split; [exact R|]. split; [vm_compute; reflexivity|].
  exact (proj1 (repeated_box_accumulates_to_white round_half_even round_half_even_nearest
                  [[0; 250]; [15; 255]] (0, 0, 1, 2) 3 R)).
Defined.


(** ** The monad *)

Section MonadFacts.

Lemma bind_return {S A B} (c : M S A) (k : A -> M S B) (s s' : S)
    (out out' : list line) (a : A) :
  c s out = (Return a, s', out') -> bind c k s out = k a s' out'.
Proof. intros E. unfold bind. now rewrite E. Qed.

Lemma bind_raise {S A B} (c : M S A) (k : A -> M S B) (s s' : S)
    (out out' : list line) (e : exn) :
  c s out = (Raise e, s', out') -> bind c k s out = (Raise e, s', out').
Proof. intros E. unfold bind. now rewrite E. Qed.

End MonadFacts.

(** ** The background-contour exclusion loop *)

Section DetectionFacts.

Context `{V : Vision}.

Lemma delete_raises_index_error {A} (arr : list A) (idx : list Z) (e : exn) :
  Np.delete arr idx = Raise e -> exists i n, e = IndexError i n.
Proof.
  unfold Np.delete.
  destruct (find _ idx) as [i|]; intros E; inversion E; eauto.
Qed.

(** The loop of lines 71 to 76: it raises at the first baseline contour when
    the contours of the frame are of different lengths, and otherwise
    prints the index errors and returns. *)
Lemma exclusion_loop_run {S} (bg cs : list contour) (s : S) (out : list line) :
  for_each bg (fun contour =>
     bind (lift (Np.any_isin contour cs)) (fun hit =>
       if hit : bool then
         try_except_IndexError
           (bind (lift (Np.delete (Np.ravel cs) (Np.ints contour))) (fun _ => ret tt))
           (fun error => print (ErrorLine error))
       else ret tt)) s out
  = if ragged_hit bg cs then (Raise (ValueError RaggedIsin), s, out)
    else (Return tt, s, out ++ map ErrorLine (index_errors bg cs)).
Proof.
  unfold ragged_hit, index_errors, Np.any_isin.
  destruct (Np.same_length cs) eqn:D; cbn [negb andb].
  - revert out. induction bg as [|contour bg IH]; intros out; cbn [for_each flat_map].
    + unfold ret. cbn. now rewrite app_nil_r.
    + unfold bind at 1. unfold bind at 1. unfold lift at 1.
      destruct (existsb _ (Np.ints contour)).
      * unfold try_except_IndexError, bind, lift.
        destruct (Np.delete (Np.ravel cs) (Np.ints contour)) as [arr|e] eqn:E.
        -- cbn. apply IH.
        -- destruct (delete_raises_index_error _ _ _ E) as (i & n & ->).
           cbn. rewrite IH. now rewrite <- app_assoc.
      * cbn. apply IH.
  - destruct bg as [|contour bg]; cbn [for_each flat_map].
    + unfold ret. now rewrite app_nil_r.
    + reflexivity.
Qed.

Lemma remove_common_contours_run {S} (bg cs : list contour) (s : S) (out : list line) :
  remove_common_contours bg cs s out
  = if ragged_hit bg cs then (Raise (ValueError RaggedIsin), s, out)
    else (Return cs, s, out ++ map ErrorLine (index_errors bg cs)).
Proof.
  unfold remove_common_contours. unfold bind at 1.
  rewrite exclusion_loop_run. destruct (ragged_hit bg cs); reflexivity.
Qed.

(** What [do_object_detection] returns or raises, and the object it leaves. *)
Lemma do_object_detection_run (mog : bool) (a : App) (g : raster) (out : list line) :
  gray a = Some g ->
  let a1 := if mog
            then set_background (snd (mog2_apply (subtractor a) g))
                   (set_subtractor (fst (mog2_apply (subtractor a) g)) a)
            else a in
  let segs := contours_work (cv_absdiff g (background a1)) RETR_EXTERNAL true in
  do_object_detection mog a out
  = if ragged_hit (contours_background a) segs
    then (Raise (ValueError RaggedIsin), a1, out)
    else (Return (normalize_small_boxes segs 200), a1,
          out ++ map ErrorLine (index_errors (contours_background a) segs)).
Proof.
  intros G. cbn zeta. unfold do_object_detection.
  unfold bind at 1. unfold get at 1. rewrite G.
  destruct mog.
  - unfold bind at 1. unfold modify at 1. unfold bind at 1. unfold get at 1.
    unfold bind at 1. rewrite remove_common_contours_run.
    unfold BackgroundSubtractor.work. cbn [contours_background set_background set_subtractor].
    destruct (ragged_hit _ _); reflexivity.
  - unfold bind at 1. unfold ret at 1. unfold bind at 1. unfold get at 1.
    unfold bind at 1. rewrite remove_common_contours_run.
    destruct (ragged_hit _ _); reflexivity.
Qed.

End DetectionFacts.

(** ** Running the loop body *)

Section BodyFacts.

Context `{V : Vision}.

Lemma exec_app (s1 s2 : list stmt) (m : Machine) (out : list line) :
  exec (s1 ++ s2) m out = bind (exec s1) (fun _ => exec s2) m out.
Proof.
  revert m out. induction s1 as [|s s1 IH]; intros m out; simpl.
  - reflexivity.
  - unfold bind. destruct (s m out) as [[[u|e] m'] out'];
      [rewrite IH; reflexivity|reflexivity].
Qed.

Lemma same_but_frame_fields (m m' : Machine) :
  same_but_frame m m' ->
  subtractor (app m') = subtractor (app m) /\
  background (app m') = background (app m) /\
  contours_background (app m') = contours_background (app m) /\
  gray (app m') = gray (app m) /\
  heatmap (app m') = heatmap (app m).
Proof.
  intros [E _]. unfold set_frame in E. inversion E. auto.
Qed.

(** Lines 108 to 112: resize, grayscale, the two detectors. *)
Lemma detection_run (args : Args) (conf : Conf) (raw : cframe) (m : Machine)
    (out : list line) :
  let f := cv_resize raw in
  let g := cv_bgr2gray f in
  let a0 := set_gray (Some g) (set_frame (Some f) (app m)) in
  let a1 := if use_mog2 args
            then set_background (snd (mog2_apply (subtractor a0) g))
                   (set_subtractor (fst (mog2_apply (subtractor a0) g)) a0)
            else a0 in
  let segs := contours_work (cv_absdiff g (background a1)) RETR_EXTERNAL true in
  let l1 := set_hog_boxes (hog_detectMultiScale f) (loc m) in
  exec [line108; line109; line111; line112 args] (with_app (set_frame (Some raw)) m) out
  = if ragged_hit (contours_background (app m)) segs
    then (Raise (ValueError RaggedIsin), mkMachine a1 l1, out)
    else (Return tt,
          mkMachine a1 (set_small_boxes (normalize_small_boxes segs 200) l1),
          out ++ map ErrorLine (index_errors (contours_background (app m)) segs)).
Proof.
  cbn zeta.
  unfold exec, line108, line109, line111, line112, on_frame, on_self, do_hog_svm.
  unfold bind, get, modify, ret. cbn.
  pose proof (do_object_detection_run (use_mog2 args)
                (set_gray (Some (cv_bgr2gray (cv_resize raw)))
                   (set_frame (Some (cv_resize raw)) (set_frame (Some raw) (app m))))
                (cv_bgr2gray (cv_resize raw)) out eq_refl) as D.
  cbn zeta in D. cbn in D.
  unfold set_gray, set_frame in *. cbn in *. rewrite D.
  destruct (use_mog2 args); cbn; destruct (ragged_hit _ _); reflexivity.
Qed.

(** Lines 114 to 142: fusion, distances and drawing; nothing is printed and
    nothing raised. *)
Lemma drawing_run (args : Args) (conf : Conf) (m : Machine) (f : cframe)
    (out : list line) :
  frame (app m) = Some f ->
  exists m2,
    exec [line114; line115 conf; line123 args; line126 args; line131;
          line134 conf; line139; line142] m out = (Return tt, m2, out) /\
    same_but_frame m m2 /\
    frame_counter (loc m2) = frame_counter (loc m) /\
    hog_boxes (loc m2) = hog_boxes (loc m) /\
    small_boxes (loc m2) = small_boxes (loc m) /\
    (exists f_in dbs,
        distances (loc m2)
        = snd (draw_distance_between_people f_in dbs (170 # 100)
                 (min_distance_allowed conf))) /\
    average_distance (loc m2)
    = (if (0 <? length (distances (loc m2)))%nat
       then RoundedMean (distances (loc m2)) else NoDistance).
Proof.
  destruct m as [a l]. destruct a as [s b cb fr g h]. cbn. intros ->.
  unfold exec, line114, line115, line123, line126, line131, line134, line139,
    line142, on_frame, bind, get, modify, ret.
  destruct (show_hog_boxes args), (no_filter_optimized_boxes args); cbn;
    eexists; (split; [reflexivity|]);
    (split; [split; [reflexivity|cbn; eauto]|]);
    cbn; repeat (split; [reflexivity|]); (split; [eauto|reflexivity]).
Qed.

(** Lines 145 to 151. *)
Lemma count_alarm_run (args : Args) (conf : Conf) (m : Machine) (f : cframe)
    (out : list line) :
  frame (app m) = Some f ->
  exists m3,
    line145 args conf m out
    = (Return tt, m3,
       out ++ (if negb (no_alarm_count args) &&
                  Qltb (max_people_allowed conf)
                       (inject_Z (Z.of_nat (length (hog_boxes (loc m)))))
               then [CountAlarm (length (hog_boxes (loc m))) (max_people_allowed conf)]
               else [])) /\
    same_but_frame m m3 /\ loc m3 = loc m.
Proof.
  destruct m as [a l]. destruct a as [s b cb fr g h]. cbn. intros ->.
  unfold line145, on_frame, bind, get, modify, ret, print. cbn.
  destruct (negb (no_alarm_count args)); cbn;
    [destruct (Qltb _ _); cbn|];
    eexists; rewrite ?app_nil_r; (split; [reflexivity|]);
    (split; [split; [reflexivity|cbn; eauto]|reflexivity]).
Qed.

(** Lines 152 to 158: [min] is reached on a list that is not empty only. *)
Lemma distance_alarm_run (args : Args) (conf : Conf) (m : Machine) (f : cframe)
    (out : list line) :
  frame (app m) = Some f ->
  exists m4,
    line152 args conf m out
    = (Return tt, m4, out ++ distance_alarm_of args conf (distances (loc m))) /\
    same_but_frame m m4 /\ loc m4 = loc m.
Proof.
  destruct m as [a l]. destruct a as [s b cb fr g h]. cbn. intros ->.
  unfold line152, distance_alarm_of, on_frame, bind, get, modify, ret, print, lift. cbn.
  destruct (negb (no_alarm_distance args)); cbn;
    destruct (distances l) as [|d ds]; cbn;
    try destruct (Qltb _ _); cbn;
    eexists; rewrite ?app_nil_r; (split; [reflexivity|]);
    (split; [split; [reflexivity|cbn; eauto]|reflexivity]).
Qed.

Lemma self_draw_heatmap_run (boxes : list box) (a : App) (out : list line) :
  self_draw_heatmap boxes a out
  = (fst (draw_run cv_round (heatmap a) boxes),
     set_heatmap (snd (draw_run cv_round (heatmap a) boxes)) a, out).
Proof.
  unfold self_draw_heatmap. revert a.
  induction boxes as [|b boxes IH]; intros a; simpl.
  - destruct a. reflexivity.
  - unfold bind, get. destruct (Np.empty_slice (heatmap a) b) eqn:E.
    + unfold raise. destruct a. reflexivity.
    + unfold modify. unfold bind, get in IH. rewrite IH.
      destruct a. reflexivity.
Qed.

(** Lines 160 to 162. *)
Lemma heatmap_run (m : Machine) (out : list line) :
  let hr := heat_update cv_round (frame_counter (loc m)) (heatmap (app m))
              (small_boxes (loc m)) in
  line160 m out = (fst hr, with_app (set_heatmap (snd hr)) m, out).
Proof.
  cbn zeta. unfold line160, heat_update, bind, get, ret.
  destruct (frame_counter (loc m) mod 10 =? 0).
  - unfold on_self, self_darken_heatmap, modify.
    rewrite self_draw_heatmap_run.
    destruct m as [a l]. destruct a. reflexivity.
  - destruct m as [a l]. destruct a. reflexivity.
Qed.

Lemma body_segments (args : Args) (conf : Conf) :
  body args conf
  = [line108; line109; line111; line112 args]
    ++ [line114; line115 conf; line123 args; line126 args; line131;
        line134 conf; line139; line142]
    ++ [line145 args conf; line152 args conf; line160].
Proof. reflexivity. Qed.

End BodyFacts.

Section TurnFacts.

Context `{V : Vision}.

(** The whole loop body, from the frame just read: what it leaves, whether
    it returns or raises. *)
Lemma body_run (args : Args) (conf : Conf) (raw : cframe) (m : Machine)
    (out : list line) :
  let g := cv_bgr2gray (cv_resize raw) in
  exists o m' new,
    exec (body args conf) (with_app (set_frame (Some raw)) m) out = (o, m', out ++ new) /\
    hog_boxes (loc m') = hog_detectMultiScale (cv_resize raw) /\
    frame_counter (loc m') = frame_counter (loc m) /\
    background (app m') = turn_background args raw (app m) /\
    subtractor (app m')
    = (if use_mog2 args then fst (mog2_apply (subtractor (app m)) g)
       else subtractor (app m)) /\
    contours_background (app m') = contours_background (app m) /\
    gray (app m') = Some g /\
    (exists f, frame (app m') = Some f) /\
    if turn_ragged args raw (app m)
    then o = Raise (ValueError RaggedIsin) /\ new = [] /\
         heatmap (app m') = heatmap (app m) /\
         small_boxes (loc m') = small_boxes (loc m) /\
         distances (loc m') = distances (loc m) /\
         average_distance (loc m') = average_distance (loc m)
    else small_boxes (loc m')
         = normalize_small_boxes (turn_contours args raw (app m)) 200 /\
         (exists f_in dbs,
             distances (loc m')
             = snd (draw_distance_between_people f_in dbs (170 # 100)
                      (min_distance_allowed conf))) /\
         average_distance (loc m')
         = (if (0 <? length (distances (loc m')))%nat
            then RoundedMean (distances (loc m')) else NoDistance) /\
         new = map ErrorLine (index_errors (contours_background (app m))
                                (turn_contours args raw (app m)))
               ++ count_alarm_of args conf raw
               ++ distance_alarm_of args conf (distances (loc m')) /\
         (o, heatmap (app m'))
         = heat_update cv_round (frame_counter (loc m)) (heatmap (app m))
             (small_boxes (loc m')).
Proof.
  cbn zeta.
  pose proof (detection_run args conf raw m out) as E1. cbn zeta in E1.
  unfold turn_ragged, turn_contours, turn_background, BackgroundSubtractor.work.
  set (g := cv_bgr2gray (cv_resize raw)) in *.
  set (a1 := if use_mog2 args then _ else _) in E1.
  assert (F1 : frame a1 = Some (cv_resize raw))
    by (subst a1; destruct (use_mog2 args); reflexivity).
  assert (BG : background a1
               = if use_mog2 args then snd (mog2_apply (subtractor (app m)) g)
                 else background (app m))
    by (subst a1; destruct (use_mog2 args); reflexivity).
  assert (S1 : subtractor a1
               = if use_mog2 args then fst (mog2_apply (subtractor (app m)) g)
                 else subtractor (app m))
    by (subst a1; destruct (use_mog2 args); reflexivity).
  assert (CB : contours_background a1 = contours_background (app m))
    by (subst a1; destruct (use_mog2 args); reflexivity).
  assert (G1 : gray a1 = Some g)
    by (subst a1; destruct (use_mog2 args); reflexivity).
  assert (HM : heatmap a1 = heatmap (app m))
    by (subst a1; destruct (use_mog2 args); reflexivity).
  rewrite BG in E1. clearbody a1.
  set (segs := contours_work _ _ _) in *.
  destruct (ragged_hit (contours_background (app m)) segs) eqn:R.
  - eexists _, _, []. rewrite app_nil_r. split.
    + rewrite body_segments, exec_app. rewrite (bind_raise _ _ _ _ _ _ _ E1).
      reflexivity.
    + cbn. repeat split; eauto.
  - set (m1 := mkMachine _ _) in E1. set (out1 := out ++ _) in E1.
    assert (F1' : frame (app m1) = Some (cv_resize raw)) by exact F1.
    destruct (drawing_run args conf m1 _ out1 F1')
      as (m2 & E2 & [S2 [f2 F2]] & C2 & H2 & B2 & D2 & A2).
    destruct (count_alarm_run args conf m2 f2 out1 F2) as (m3 & E3 & [S3 [f3 F3]] & L3).
    set (out3 := out1 ++ _) in E3.
    destruct (distance_alarm_run args conf m3 f3 out3 F3) as (m4 & E4 & [S4 [f4 F4]] & L4).
    set (out4 := out3 ++ _) in E4.
    pose proof (heatmap_run m4 out4) as E5. cbn zeta in E5.
    set (hr := heat_update _ _ _ _) in E5.
    exists (fst hr), (with_app (set_heatmap (snd hr)) m4).
    eexists. split.
    + rewrite body_segments, exec_app, (bind_return _ _ _ _ _ _ _ E1).
      rewrite exec_app, (bind_return _ _ _ _ _ _ _ E2).
      cbn [exec].
      rewrite (bind_return _ _ _ _ _ _ _ E3), (bind_return _ _ _ _ _ _ _ E4).
      unfold bind. rewrite E5.
      assert (X : forall (o : outcome unit) (mm : Machine) (oo : list line),
                 match o with
                 | Return _ => ret tt mm oo
                 | Raise e => (Raise e, mm, oo)
                 end = (o, mm, oo)) by (intros [[]|e] mm oo; reflexivity).
      rewrite X. subst out4 out3 out1. rewrite <- !app_assoc. reflexivity.
    + cbn [loc app with_app]. rewrite L4, L3.
      unfold set_frame in S2, S3, S4. inversion S2. inversion S3. inversion S4.
      subst m1. cbn [app loc] in *.
      cbn [subtractor gray frame background contours_background heatmap set_heatmap
           set_small_boxes set_hog_boxes hog_boxes small_boxes frame_counter] in *.
      repeat split; try congruence.
      * eauto.
      * unfold count_alarm_of. rewrite H2. reflexivity.
      * subst hr. rewrite L4, L3, C2, B2. cbn.
        replace (heatmap (app m4)) with (heatmap (app m)) by congruence.
        symmetry. apply surjective_pairing.
Qed.

(** A turn is its body, then lines 170 to 173. *)
Lemma iteration_run (args : Args) (conf : Conf) (raw : cframe) (key : Z)
    (m : Machine) (out : list line) :
  iteration args conf raw key m out
  = (let r := exec (body args conf) (with_app (set_frame (Some raw)) m) out in
     (fst (turn_end (outcome_of r) key (state_of r)),
      snd (turn_end (outcome_of r) key (state_of r)), console_of r)).
Proof.
  unfold iteration, bind, modify. cbn zeta.
  destruct (exec _ _ out) as [[[[]|e] m'] out']; cbn; [|reflexivity].
  destruct (quit_key key); reflexivity.
Qed.

(** One turn of the loop, whether it returns or raises: the fields it
    leaves, what it prints, and how it ends. *)
Lemma turn_run (args : Args) (conf : Conf) (raw : cframe) (key : Z) (m : Machine)
    (out : list line) :
  let g := cv_bgr2gray (cv_resize raw) in
  exists o m' new,
    iteration args conf raw key m out = (o, m', out ++ new) /\
    hog_boxes (loc m') = hog_detectMultiScale (cv_resize raw) /\
    frame_counter (loc m')
    = frame_counter (loc m) + (match o with Return true => 1 | _ => 0 end) /\
    background (app m') = turn_background args raw (app m) /\
    subtractor (app m')
    = (if use_mog2 args then fst (mog2_apply (subtractor (app m)) g)
       else subtractor (app m)) /\
    contours_background (app m') = contours_background (app m) /\
    gray (app m') = Some g /\
    (exists f, frame (app m') = Some f) /\
    if turn_ragged args raw (app m)
    then o = Raise (ValueError RaggedIsin) /\ new = [] /\
         heatmap (app m') = heatmap (app m) /\
         small_boxes (loc m') = small_boxes (loc m) /\
         distances (loc m') = distances (loc m) /\
         average_distance (loc m') = average_distance (loc m)
    else small_boxes (loc m')
         = normalize_small_boxes (turn_contours args raw (app m)) 200 /\
         (exists f_in dbs,
             distances (loc m')
             = snd (draw_distance_between_people f_in dbs (170 # 100)
                      (min_distance_allowed conf))) /\
         average_distance (loc m')
         = (if (0 <? length (distances (loc m')))%nat
            then RoundedMean (distances (loc m')) else NoDistance) /\
         new = map ErrorLine (index_errors (contours_background (app m))
                                (turn_contours args raw (app m)))
               ++ count_alarm_of args conf raw
               ++ distance_alarm_of args conf (distances (loc m')) /\
         let hr := heat_update cv_round (frame_counter (loc m)) (heatmap (app m))
                     (small_boxes (loc m')) in
         heatmap (app m') = snd hr /\
         o = match fst hr with
             | Return _ => Return (negb (quit_key key))
             | Raise e => Raise e
             end.
Proof.
  cbn zeta.
  destruct (body_run args conf raw m out)
    as (o & m' & new & E & HB & FC & BG & SB & CB & G & F & Rest).
  rewrite iteration_run, E. cbn zeta.
  unfold outcome_of, state_of, console_of. cbn [fst snd].
  destruct (turn_ragged args raw (app m)).
  - destruct Rest as (-> & -> & Rest). cbn [turn_end fst snd].
    eexists _, _, _. split; [reflexivity|].
    repeat split; try assumption; try apply Rest. lia.
  - destruct Rest as (B & D & A & N & H).
    destruct o as [[]|e]; cbn [turn_end].
    + destruct (quit_key key); cbn [fst snd negb];
        eexists _, _, _; (split; [reflexivity|]);
        cbn [app loc with_loc frame_counter set_frame_counter hog_boxes small_boxes
             distances average_distance];
        rewrite <- H; cbn [fst snd];
        repeat split; try assumption; lia.
    + cbn [fst snd]. eexists _, _, _. split; [reflexivity|].
      rewrite <- H. cbn [fst snd].
      repeat split; try assumption; lia.
Qed.

End TurnFacts.

(** ** The resolution of the rasters *)

Section ShapeFacts.

Context `{V : Vision}.

Lemma has_shape_map (rows cols : nat) (f : Z -> Z) (m : raster) :
  has_shape rows cols m -> has_shape rows cols (map (map f) m).
Proof.
  intros [L F]. split; [now rewrite length_map|].
  apply Forall_map. revert F. apply Forall_impl. intros row E.
  now rewrite length_map.
Qed.

Lemma has_shape_map_box (rows cols : nat) (f : Z -> Z) (m : raster) (b : box) :
  has_shape rows cols m -> has_shape rows cols (map_box f m b).
Proof.
  intros [L F]. destruct b as [[[x y] w] h]. unfold map_box.
  split; [now rewrite mapi_length|].
  apply mapi_Forall; [|exact F].
  intros i row E. destruct (under _ y h i); [|exact E].
  now rewrite mapi_length.
Qed.

Lemma has_shape_darken (rows cols : nat) (m : raster) :
  has_shape rows cols m -> has_shape rows cols (darken_heatmap cv_round m).
Proof. rewrite darken_heatmap_pointwise. apply has_shape_map. Qed.

Lemma has_shape_draw_run (rows cols : nat) (boxes : list box) (m : raster) :
  has_shape rows cols m -> has_shape rows cols (snd (draw_run cv_round m boxes)).
Proof.
  revert m. induction boxes as [|b boxes IH]; intros m Sm; cbn [draw_run]; [exact Sm|].
  destruct (Np.empty_slice m b); [exact Sm|].
  apply IH. rewrite draw_heatmap_box_pointwise. now apply has_shape_map_box.
Qed.

Lemma has_shape_heat_update (rows cols : nat) (counter : Z) (boxes : list box)
    (m : raster) :
  has_shape rows cols m ->
  has_shape rows cols (snd (heat_update cv_round counter m boxes)).
Proof.
  intros Sm. unfold heat_update. destruct (_ =? 0); [|exact Sm].
  apply has_shape_draw_run, has_shape_darken, Sm.
Qed.

Hypothesis shapes : VisionShapes.

Lemma on_frame_keeps (draw : cframe -> Locals -> cframe) :
  (forall f l, cshape (draw f l) = cshape f) -> keeps_resolution (on_frame draw).
Proof.
  intros D m out ((f & F & Sf) & G & B & H).
  unfold on_frame, bind, get, modify, state_of. rewrite F. cbn.
  split; [|split; [exact G|split; [exact B|exact H]]].
  exists (draw f (loc m)). split; [reflexivity|]. now rewrite D.
Qed.

Lemma ret_keeps : keeps_resolution (ret tt).
Proof. intros m out R. exact R. Qed.

Lemma locals_keep (f : Machine -> Locals -> Locals) :
  keeps_resolution (modify (fun m => with_loc (f m) m)).
Proof. intros m out R. exact R. Qed.

Lemma body_keeps (args : Args) (conf : Conf) :
  Forall keeps_resolution
    [line111; line112 args; line114; line115 conf; line123 args; line126 args;
     line131; line134 conf; line139; line142; line145 args conf;
     line152 args conf; line160].
Proof.
  repeat apply Forall_cons; try apply Forall_nil.
  - (* 111 *)
    intros m out R. pose proof R as ((f & F & _) & _).
    unfold line111, on_self, do_hog_svm, bind, get, modify, ret, state_of. rewrite F.
    exact R.
  - (* 112 *)
    intros m out R. pose proof R as ((f & F & Sf) & (g & G & Sg) & B & H).
    unfold line112, on_self, bind, state_of.
    rewrite (do_object_detection_run _ _ g) by exact G. cbn zeta.
    assert (R1 : resolution
                   (if use_mog2 args
                    then set_background (snd (mog2_apply (subtractor (app m)) g))
                           (set_subtractor (fst (mog2_apply (subtractor (app m)) g)) (app m))
                    else app m)).
    { destruct (use_mog2 args); [|exact R].
      split; [exists f; split; [exact F|exact Sf]|].
      split; [exists g; split; [exact G|exact Sg]|].
      split; [|exact H].
      apply (mog2_shape shapes). exact Sg. }
    destruct (ragged_hit _ _); exact R1.
  - (* 114 *) apply (locals_keep (fun m => set_filtered_boxes _)).
  - (* 115 *)
    intros m out R. pose proof R as ((f & F & _) & _).
    unfold line115, bind, get, modify, state_of. rewrite F. exact R.
  - (* 123 *)
    unfold line123. destruct (show_hog_boxes args); [|apply ret_keeps].
    apply on_frame_keeps. intros. apply (draw_hog_shape shapes).
  - (* 126 *)
    unfold line126. destruct (no_filter_optimized_boxes args);
      apply on_frame_keeps; intros; apply (draw_boxes_shape shapes).
  - (* 131 *) apply on_frame_keeps. intros. apply (write_count_shape shapes).
  - (* 134 *)
    intros m out ((f & F & Sf) & G & B & H).
    unfold line134, bind, get, modify, state_of. rewrite F. cbn.
    split; [|split; [exact G|split; [exact B|exact H]]].
    eexists. split; [reflexivity|]. now rewrite (draw_distance_shape shapes).
  - (* 139 *) apply (locals_keep (fun m => set_average_distance _)).
  - (* 142 *) apply on_frame_keeps. intros. apply (write_average_shape shapes).
  - (* 145 *)
    intros m out R. unfold line145, bind, get.
    destruct (negb (no_alarm_count args)); [|exact R].
    destruct (Qltb _ _); [|exact R].
    unfold print.
    apply (on_frame_keeps (fun f _ => cv_circle f (335, 265) 3 (0, 128, 255) 5)); [|exact R].
    intros. apply (circle_shape shapes).
  - (* 152 *)
    intros m out R. unfold line152, bind, get.
    destruct (distances (loc m)) as [|d ds];
      [rewrite andb_false_r; exact R|].
    destruct (negb (no_alarm_distance args) && _); [|exact R].
    unfold lift. cbn [Py.min].
    destruct (Qltb _ _); [|exact R].
    unfold print.
    apply (on_frame_keeps (fun f _ => cv_circle f (335, 285) 3 (0, 0, 255) 5)); [|exact R].
    intros. apply (circle_shape shapes).
  - (* 160 *)
    intros m out (F & G & B & H). rewrite heatmap_run. unfold state_of. cbn.
    split; [exact F|split; [exact G|split; [exact B|]]].
    apply has_shape_heat_update, H.
Qed.

(** Running any prefix of statements that keep the resolution keeps it,
    where the prefix ends as where it raises. *)
Lemma exec_keeps (ss : list stmt) :
  Forall keeps_resolution ss ->
  forall (k : nat) (m : Machine) (out : list line),
    resolution (app m) ->
    resolution (app (state_of (exec (firstn k ss) m out))).
Proof.
  induction 1 as [|s ss Ks _ IH]; intros k m out R.
  - rewrite firstn_nil. exact R.
  - destruct k as [|k]; cbn [firstn exec]; [exact R|].
    pose proof (Ks m out R) as R1. unfold bind, state_of in *.
    destruct (s m out) as [[[[]|e] m1] out1]; cbn [fst snd] in *.
    + now apply IH.
    + exact R1.
Qed.

Lemma init_sized (image : cframe) (fresh : mog2) : rasters_sized (init image fresh).
Proof.
  split; cbn.
  - apply (resize_gray_shape shapes).
  - apply has_shape_map, (resize_gray_shape shapes).
Qed.

(** Lines 108 and 109 establish the resolution. *)
Lemma resize_and_grayscale (raw : cframe) (m : Machine) (out : list line) :
  rasters_sized (app m) ->
  exists m2,
    exec [line108; line109] (with_app (set_frame (Some raw)) m) out = (Return tt, m2, out) /\
    resolution (app m2).
Proof.
  intros [B H]. eexists. split; [reflexivity|].
  split; [|split; [|split; [exact B|exact H]]].
  - eexists. split; [reflexivity|]. apply (resize_shape shapes).
  - eexists. split; [reflexivity|].
    apply (bgr2gray_shape shapes), (resize_shape shapes).
Qed.

Lemma body_point (args : Args) (conf : Conf) (raw : cframe) (m : Machine)
    (out : list line) (k : nat) :
  rasters_sized (app m) ->
  (2 <= k)%nat ->
  resolution
    (app (state_of (exec (firstn k (body args conf))
                      (with_app (set_frame (Some raw)) m) out))).
Proof.
  intros Sz K.
  destruct k as [|[|k]]; [lia|lia|].
  destruct (resize_and_grayscale raw m out Sz) as (m2 & E2 & R2).
  change (firstn (S (S k)) (body args conf))
    with ([line108; line109]
            ++ firstn k [line111; line112 args; line114; line115 conf; line123 args;
                         line126 args; line131; line134 conf; line139; line142;
                         line145 args conf; line152 args conf; line160]).
  rewrite exec_app, (bind_return _ _ _ _ _ _ _ E2).
  apply exec_keeps; [apply body_keeps|exact R2].
Qed.

(** A turn keeps the sizes of the two rasters that outlive it. *)
Lemma iteration_sized (args : Args) (conf : Conf) (raw : cframe) (key : Z)
    (m : Machine) (out : list line) :
  rasters_sized (app m) ->
  rasters_sized (app (state_of (iteration args conf raw key m out))).
Proof.
  intros Sz.
  pose proof (body_point args conf raw m out 15 Sz ltac:(lia)) as R.
  change (firstn 15 (body args conf)) with (body args conf) in R.
  rewrite iteration_run. cbn zeta. unfold state_of in *. cbn [fst snd].
  destruct (exec _ _ out) as [[[[]|e] m1] out1]; cbn [fst snd outcome_of turn_end] in *.
  - destruct (quit_key key); split; apply R.
  - split; apply R.
Qed.

Lemma iterations_sized (args : Args) (conf : Conf) (pre : list (cframe * Z))
    (m : Machine) (out : list line) :
  rasters_sized (app m) ->
  rasters_sized (app (state_of (iterations args conf pre m out))).
Proof.
  revert m out. induction pre as [|[raw key] pre IH]; intros m out Sz; cbn [iterations].
  - exact Sz.
  - pose proof (iteration_sized args conf raw key m out Sz) as S1.
    unfold bind, state_of in *.
    destruct (iteration args conf raw key m out) as [[[[]|e] m1] out1]; cbn [fst snd] in *.
    + now apply IH.
    + exact S1.
    + exact S1.
Qed.

(** C9, amended. In every turn of the loop, at every point from the end
    of line 109 on (the frame resized, its grayscale derived), the colour
    frame, the grayscale frame, the background model and the heatmap are
    all 350 pixels wide and 300 high: so it is where the statements run so
    far end, and where one of them raises. *)
Theorem resolution_holds_once_resized_and_gray (args : Args) (conf : Conf)
    (image : cframe) (fresh : mog2) (pre : list (cframe * Z)) (raw : cframe)
    (out : list line) (m_top : Machine) (out_top : list line) (k : nat) :
  iterations args conf pre (mkMachine (init image fresh) locals0) out
  = (Return true, m_top, out_top) ->
  (2 <= k)%nat ->
  resolution
    (app (state_of (exec (firstn k (body args conf))
                      (with_app (set_frame (Some raw)) m_top) out_top))).
Proof.
  intros E K. apply body_point; [|exact K].
  pose proof (iterations_sized args conf pre (mkMachine (init image fresh) locals0) out
                (init_sized image fresh)) as Sz.
  now rewrite E in Sz.
Qed.

End ShapeFacts.

(** ** Whole runs *)

Section RunFacts.

Context `{V : Vision}.

Lemma start_loop_cons (args : Args) (conf : Conf) (raw : cframe) (key : Z)
    (rest : list (cframe * Z)) (m : Machine) (out : list line) :
  start_loop args conf ((raw, key) :: rest) m out
  = match iteration args conf raw key m out with
    | (Return true, m', out') => start_loop args conf rest m' out'
    | (Return false, m', out') => (Return tt, m', out')
    | (Raise e, m', out') => (Raise e, m', out')
    end.
Proof.
  cbn [start_loop]. unfold bind.
  destruct (iteration args conf raw key m out) as [[[[]|e] m'] out']; reflexivity.
Qed.

Lemma start_of_raising_turn (args : Args) (conf : Conf) (raw : cframe) (key : Z)
    (rest : list (cframe * Z)) (a : App) (out : list line) (e : exn) (m' : Machine)
    (out' : list line) :
  iteration args conf raw key (mkMachine a locals0) out = (Raise e, m', out') ->
  start args conf ((raw, key) :: rest) a out = (Raise e, m', out').
Proof. intros E. unfold start. now rewrite start_loop_cons, E. Qed.

(** A property of the machine and the console that the end of the stream
    and every turn keep, whether the turn returns or raises, holds of what
    [start_loop] leaves; an exception that leaves [start_loop] is one that
    left a turn. *)
Lemma start_loop_invariant (args : Args) (conf : Conf)
    (P : Machine -> list line -> Prop) (E : exn -> Prop) :
  (forall m out, P m out -> P (with_app (set_frame None) m) out) ->
  (forall raw key m out,
      P m out ->
      P (state_of (iteration args conf raw key m out))
        (console_of (iteration args conf raw key m out)) /\
      forall e, outcome_of (iteration args conf raw key m out) = Raise e -> E e) ->
  forall stream m out,
    P m out ->
    P (state_of (start_loop args conf stream m out))
      (console_of (start_loop args conf stream m out)) /\
    forall e, outcome_of (start_loop args conf stream m out) = Raise e -> E e.
Proof.
  intros Pend Pturn.
  induction stream as [|[raw key] rest IH]; intros m out Pm.
  - split; [now apply Pend|]. intros e X. discriminate X.
  - rewrite start_loop_cons.
    destruct (Pturn raw key m out Pm) as [P1 E1].
    unfold state_of, console_of, outcome_of in *.
    destruct (iteration args conf raw key m out) as [[[[]|e] m'] out'];
      cbn [fst snd] in *.
    + now apply IH.
    + split; [exact P1|]. intros e X. discriminate X.
    + split; [exact P1|]. intros e' X. apply E1. congruence.
Qed.

(** What a turn prints is licensed by the object the run began with. *)
Lemma index_errors_justified (cb segs : list contour) :
  Forall (fun l => match l with
                   | ErrorLine e => cb <> [] /\ exists i n, e = IndexError i n
                   | _ => False
                   end)
         (map ErrorLine (index_errors cb segs)).
Proof.
  apply Forall_map, Forall_forall. intros e I.
  unfold index_errors in I. apply in_flat_map in I. destruct I as (c & Ic & Ie).
  split; [intros ->; contradiction|].
  destruct (Np.any_isin c segs) as [[]|]; try contradiction.
  destruct (Np.delete _ _) as [arr|e'] eqn:D; [contradiction|].
  destruct Ie as [<-|[]]. eapply delete_raises_index_error. exact D.
Qed.

Lemma count_alarm_justified (args : Args) (conf : Conf) (a : App) (raw : cframe) :
  Forall (justified args conf a) (count_alarm_of args conf raw).
Proof.
  unfold count_alarm_of.
  destruct (negb (no_alarm_count args)) eqn:F; cbn [andb]; [|constructor].
  destruct (Qltb _ _) eqn:L; [|constructor].
  repeat constructor.
  - now apply negb_true_iff.
  - now apply Qltb_lt.
Qed.

Lemma distance_alarm_justified (args : Args) (conf : Conf) (a : App) (ds : list Q) :
  Forall (justified args conf a) (distance_alarm_of args conf ds).
Proof.
  unfold distance_alarm_of. destruct ds as [|d ds]; [constructor|]. cbn zeta.
  destruct (negb (no_alarm_distance args)) eqn:F; cbn [andb]; [|constructor].
  destruct (Qltb _ _); [|constructor].
  repeat constructor. now apply negb_true_iff.
Qed.

(** How a turn can end. *)
Lemma turn_outcomes (args : Args) (conf : Conf) (raw : cframe) (key : Z)
    (m : Machine) (out : list line) (e : exn) :
  outcome_of (iteration args conf raw key m out) = Raise e ->
  e = ValueError RaggedIsin \/ e = TypeError.
Proof.
  destruct (turn_run args conf raw key m out) as (o & m' & new & E & _ & _ & _ & _ & _ & _ & _ & R).
  rewrite E. unfold outcome_of. cbn [fst]. intros ->.
  destruct (turn_ragged args raw (app m)).
  - destruct R as (X & _). left. congruence.
  - destruct R as (_ & _ & _ & _ & _ & X). right.
    unfold heat_update in X.
    destruct (_ =? 0); [|discriminate X].
    set (h := darken_heatmap _ _) in X. clearbody h.
    set (bs := small_boxes _) in X. clearbody bs.
    revert h X. induction bs as [|b bs IH]; intros h X; cbn [draw_run] in X.
    + discriminate X.
    + destruct (Np.empty_slice h b); [cbn in X; congruence|]. now apply (IH _ X).
Qed.

(** X1. A run of [start] only appends to the console, and an exception that
    leaves it is the [ValueError] of line 72 or the [TypeError] of line 89:
    no [IndexError], no error of a vision call on a missing frame and no
    [ValueError] of [min] leaves the loop. *)
Theorem start_only_appends_and_raises_two_errors (args : Args) (conf : Conf)
    (stream : list (cframe * Z)) (a : App) (out : list line) :
  (exists new, console_of (start args conf stream a out) = out ++ new) /\
  forall e,
    outcome_of (start args conf stream a out) = Raise e ->
    e = ValueError RaggedIsin \/ e = TypeError.
Proof.
  apply (start_loop_invariant args conf (fun _ o => exists new, o = out ++ new)
           (fun e => e = ValueError RaggedIsin \/ e = TypeError)).
  - intros m o H. exact H.
  - intros raw key m o [new ->]. split; [|apply turn_outcomes].
    destruct (turn_run args conf raw key m (out ++ new)) as (r & m' & new' & E & _).
    rewrite E. unfold console_of. cbn [snd]. rewrite <- app_assoc. eauto.
  - exists []. now rewrite app_nil_r.
Qed.

(** X3. The baseline contours found at start-up are those of the object that
    [start] leaves, whether it returns or raises: no turn of the loop
    assigns the field. *)
Theorem baseline_contours_are_never_reassigned (args : Args) (conf : Conf)
    (stream : list (cframe * Z)) (a : App) (out : list line) :
  contours_background (app (state_of (start args conf stream a out)))
  = contours_background a.
Proof.
  apply (start_loop_invariant args conf
           (fun m _ => contours_background (app m) = contours_background a)
           (fun _ => True)).
  - intros m o H. exact H.
  - intros raw key m o H. split; [|trivial].
    destruct (turn_run args conf raw key m o)
      as (r & m' & new & E & _ & _ & _ & _ & CB & _).
    rewrite E. unfold state_of. cbn [fst snd]. now rewrite CB.
  - reflexivity.
Qed.

(** X2. Every line that a run prints, up to where it returns or raises, has
    its reason: an error line is an index error and needs a baseline contour;
    a count alarm needs its flag off, carries the configured maximum and a
    count above it; a distance alarm needs its flag off and carries the
    configured minimum. *)
Theorem every_printed_line_is_justified (args : Args) (conf : Conf)
    (stream : list (cframe * Z)) (a : App) (out : list line) :
  exists new,
    console_of (start args conf stream a out) = out ++ new /\
    Forall (justified args conf a) new.
Proof.
  destruct (start_loop_invariant args conf
              (fun m o => contours_background (app m) = contours_background a /\
                          exists new, o = out ++ new /\ Forall (justified args conf a) new)
              (fun _ => True))
    with (stream := stream) (m := mkMachine a locals0) (out := out)
    as ((_ & new & E & J) & _).
  - intros m o H. exact H.
  - intros raw key m o (CB & new & -> & J). split; [|trivial].
    destruct (turn_run args conf raw key m (out ++ new))
      as (r & m' & new' & E & _ & _ & _ & _ & CB' & _ & _ & R).
    rewrite E. unfold state_of, console_of. cbn [fst snd].
    split; [now rewrite CB'|].
    exists (new ++ new'). split; [now rewrite app_assoc|].
    apply Forall_app. split; [exact J|].
    destruct (turn_ragged args raw (app m)).
    + destruct R as (_ & -> & _). constructor.
    + destruct R as (_ & _ & _ & -> & _).
      apply Forall_app. split; [|apply Forall_app; split].
      * rewrite CB. eapply Forall_impl; [|apply index_errors_justified].
        intros [e|n l|f l]; cbn; tauto.
      * apply count_alarm_justified.
      * apply distance_alarm_justified.
  - split; [reflexivity|]. exists []. split; [now rewrite app_nil_r|constructor].
  - exists new. split; [exact E|exact J].
Qed.

Lemma quit_key_low_byte (key : Z) : quit_key key = (key mod 256 =? 113).
Proof.
  unfold quit_key. change 255 with (Z.ones 8).
  rewrite Z.land_ones by lia. reflexivity.
Qed.

Lemma turn_goes_on (args : Args) (conf : Conf) (raw : cframe) (key : Z)
    (m : Machine) (out : list line) (b : bool) :
  outcome_of (iteration args conf raw key m out) = Return b ->
  b = negb (quit_key key).
Proof.
  rewrite iteration_run. cbn zeta. unfold outcome_of. cbn [fst].
  destruct (fst (fst (exec _ _ out))) as [[]|e]; cbn [turn_end fst].
  - destruct (quit_key key); cbn; congruence.
  - discriminate.
Qed.

Lemma start_loop_processed (args : Args) (conf : Conf) (stream : list (cframe * Z))
    (m : Machine) (out : list line) :
  start_loop args conf stream m out = start_loop args conf (processed stream) m out.
Proof.
  revert m out. induction stream as [|[raw key] rest IH]; intros m out; [reflexivity|].
  cbn [processed]. destruct (quit_key key) eqn:K; rewrite !start_loop_cons.
  - pose proof (turn_goes_on args conf raw key m out) as G. unfold outcome_of in G.
    destruct (iteration args conf raw key m out) as [[[b|e] m'] out']; [|reflexivity].
    rewrite (G b eq_refl), K. reflexivity.
  - destruct (iteration args conf raw key m out) as [[[[]|e] m'] out'];
      [apply IH|reflexivity|reflexivity].
Qed.

(** X4. The run ends with the first turn whose key, in its low byte, is the
    code of "q": the frames after it are never read, whatever they are. *)
Theorem frames_after_the_quit_key_are_not_read (args : Args) (conf : Conf)
    (stream : list (cframe * Z)) (a : App) (out : list line) :
  start args conf stream a out = start args conf (processed stream) a out /\
  forall key, quit_key key = (key mod 256 =? 113).
Proof.
  split; [apply start_loop_processed|apply quit_key_low_byte].
Qed.

Lemma start_loop_counter (args : Args) (conf : Conf) (stream : list (cframe * Z))
    (m : Machine) (out : list line) :
  let r := start_loop args conf stream m out in
  frame_counter (loc m) <= frame_counter (loc (state_of r))
  <= frame_counter (loc m) + Z.of_nat (length (completed stream)) /\
  (outcome_of r = Return tt ->
   frame_counter (loc (state_of r))
   = frame_counter (loc m) + Z.of_nat (length (completed stream)) /\
   (if no_quit stream then frame (app (state_of r)) = None
    else exists f, frame (app (state_of r)) = Some f)) /\
  (forall e, outcome_of r = Raise e -> exists f, frame (app (state_of r)) = Some f).
Proof.
  cbn zeta. revert m out.
  induction stream as [|[raw key] rest IH]; intros m out.
  - cbn. split; [lia|]. split; [intros _; split; [lia|reflexivity]|discriminate].
  - rewrite start_loop_cons.
    destruct (turn_run args conf raw key m out)
      as (o & m' & new & E & _ & FC & _ & _ & _ & _ & F & _).
    pose proof (turn_goes_on args conf raw key m out) as G.
    rewrite E in *. unfold outcome_of in G. cbn [fst] in G.
    cbn [completed no_quit forallb snd].
    destruct o as [[]|e].
    + specialize (G true eq_refl).
      symmetry in G. apply negb_true_iff in G. rewrite G. cbn [negb andb length].
      destruct (IH m' (out ++ new)) as (B & R & X).
      split; [lia|]. split; [|exact X].
      intros Y. destruct (R Y) as [C Fr]. split; [lia|exact Fr].
    + specialize (G false eq_refl). symmetry in G. apply negb_false_iff in G.
      rewrite G. cbn [negb andb length]. unfold state_of, outcome_of. cbn [fst snd].
      split; [lia|]. split; [intros _; split; [lia|exact F]|discriminate].
    + unfold state_of, outcome_of. cbn [fst snd].
      split; [destruct (quit_key key); cbn [length]; lia|].
      split; [discriminate|]. intros _ _. exact F.
Qed.

(** X5. The frame counter that [start] leaves is at most the number of
    frames before the first quit key.  When [start] returns it is that number
    (the turn that quits does not count), and the frame field is [None]
    exactly when the stream ran out; when [start] raises, the frame of the
    turn that raised is still there. *)
Theorem counter_counts_the_completed_turns (args : Args) (conf : Conf)
    (stream : list (cframe * Z)) (a : App) (out : list line) :
  let r := start args conf stream a out in
  0 <= frame_counter (loc (state_of r)) <= Z.of_nat (length (completed stream)) /\
  (outcome_of r = Return tt ->
   frame_counter (loc (state_of r)) = Z.of_nat (length (completed stream)) /\
   (if no_quit stream then frame (app (state_of r)) = None
    else exists f, frame (app (state_of r)) = Some f)) /\
  (forall e, outcome_of r = Raise e -> exists f, frame (app (state_of r)) = Some f).
Proof.
  exact (start_loop_counter args conf stream (mkMachine a locals0) out).
Qed.



Lemma turn_background_toggle (args args' : Args) (raw : cframe) (a b : App) :
  use_mog2 args = use_mog2 args' ->
  subtractor a = subtractor b ->
  background a = background b ->
  turn_background args raw a = turn_background args' raw b.
Proof. unfold turn_background. now intros -> -> ->. Qed.

Lemma turn_persistent (args args' : Args) (conf conf' : Conf) (raw : cframe)
    (key : Z) (m n : Machine) (o o' : list line) :
  use_mog2 args = use_mog2 args' ->
  persistent m = persistent n ->
  outcome_of (iteration args conf raw key m o)
  = outcome_of (iteration args' conf' raw key n o') /\
  persistent (state_of (iteration args conf raw key m o))
  = persistent (state_of (iteration args' conf' raw key n o')).
Proof.
  intros U P. unfold persistent in P. injection P as Ps Pb Pc Ph Pf.
  pose proof (turn_background_toggle args args' raw _ _ U Ps Pb) as TB.
  assert (TC : turn_contours args raw (app m) = turn_contours args' raw (app n))
    by (unfold turn_contours; now rewrite TB).
  assert (TR : turn_ragged args raw (app m) = turn_ragged args' raw (app n))
    by (unfold turn_ragged; now rewrite TC, Pc).
  destruct (turn_run args conf raw key m o)
    as (r1 & m1 & new1 & E1 & _ & FC1 & BG1 & SB1 & CB1 & _ & _ & R1).
  destruct (turn_run args' conf' raw key n o')
    as (r2 & m2 & new2 & E2 & _ & FC2 & BG2 & SB2 & CB2 & _ & _ & R2).
  rewrite E1, E2. unfold outcome_of, state_of, persistent. cbn [fst snd].
  rewrite <- TR in R2.
  assert (X : r1 = r2 /\ heatmap (app m1) = heatmap (app m2)).
  { destruct (turn_ragged args raw (app m)).
    - destruct R1 as (-> & _ & H1 & _), R2 as (-> & _ & H2 & _).
      split; congruence.
    - destruct R1 as (B1 & _ & _ & _ & H1 & O1), R2 as (B2 & _ & _ & _ & H2 & O2).
      rewrite B1 in *. rewrite B2 in *.
      rewrite <- TC, <- Ph, <- Pf in H2, O2.
      split; congruence. }
  destruct X as [<- XH]. split; [reflexivity|].
  rewrite BG1, BG2, SB1, SB2, CB1, CB2, FC1, FC2, XH, TB, U, Ps, Pc, Pf. reflexivity.
Qed.

Lemma start_loop_persistent (args args' : Args) (conf conf' : Conf)
    (stream : list (cframe * Z)) (m n : Machine) (o o' : list line) :
  use_mog2 args = use_mog2 args' ->
  persistent m = persistent n ->
  outcome_of (start_loop args conf stream m o)
  = outcome_of (start_loop args' conf' stream n o') /\
  persistent (state_of (start_loop args conf stream m o))
  = persistent (state_of (start_loop args' conf' stream n o')).
Proof.
  intros U. revert m n o o'.
  induction stream as [|[raw key] rest IH]; intros m n o o' P.
  - split; [reflexivity|].
    unfold persistent in *. injection P as A B C D F. cbn. congruence.
  - rewrite !start_loop_cons.
    destruct (turn_persistent args args' conf conf' raw key m n o o' U P) as [O1 P1].
    unfold outcome_of, state_of in O1, P1.
    destruct (iteration args conf raw key m o) as [[r1 m1] p1].
    destruct (iteration args' conf' raw key n o') as [[r2 m2] p2].
    cbn [fst snd] in O1, P1. subst r2.
    destruct r1 as [[]|e].
    + now apply IH.
    + split; [reflexivity|exact P1].
    + split; [reflexivity|exact P1].
Qed.

(** X7. How a run ends, and the heatmap, the background model, the MOG2
    state, the baseline contours and the frame counter that it leaves,
    depend on the adaptive toggle and on the stream only: the display flags,
    the two alarm flags, the alarm thresholds and the camera configuration
    have no influence on them. *)
Theorem only_the_toggle_shapes_the_rasters (args args' : Args) (conf conf' : Conf)
    (stream : list (cframe * Z)) (a : App) (out out' : list line) :
  use_mog2 args = use_mog2 args' ->
  outcome_of (start args conf stream a out)
  = outcome_of (start args' conf' stream a out') /\
  persistent (state_of (start args conf stream a out))
  = persistent (state_of (start args' conf' stream a out')).
Proof.
  intros U. now apply start_loop_persistent.
Qed.

End RunFacts.

(** ** The two alarms *)

Ltac case_ifs :=
  repeat match goal with
         | |- context [if ?b then _ else _] => destruct b
         end.

Section AlarmFacts.

Context `{V : Vision}.

Lemma count_alarm_lines (args : Args) (conf : Conf) (raw : cframe) :
  filter is_count_alarm (count_alarm_of args conf raw) = count_alarm_of args conf raw /\
  filter is_distance_alarm (count_alarm_of args conf raw) = [].
Proof. unfold count_alarm_of. case_ifs; split; reflexivity. Qed.

Lemma distance_alarm_lines (args : Args) (conf : Conf) (ds : list Q) :
  filter is_distance_alarm (distance_alarm_of args conf ds) = distance_alarm_of args conf ds /\
  filter is_count_alarm (distance_alarm_of args conf ds) = [].
Proof.
  unfold distance_alarm_of. destruct ds as [|d ds]; [split; reflexivity|].
  cbn zeta. case_ifs; split; reflexivity.
Qed.

(** The alarm lines among what a turn that reaches line 145 prints. *)
Lemma turn_alarm_lines (args : Args) (conf : Conf) (raw : cframe) (errs : list exn)
    (ds : list Q) :
  let new := map ErrorLine errs ++ count_alarm_of args conf raw
             ++ distance_alarm_of args conf ds in
  filter is_count_alarm new = count_alarm_of args conf raw /\
  filter is_distance_alarm new = distance_alarm_of args conf ds.
Proof.
  cbn zeta. rewrite !filter_app, !filter_error_lines by reflexivity.
  destruct (count_alarm_lines args conf raw) as [-> ->].
  destruct (distance_alarm_lines args conf ds) as [-> ->].
  cbn [List.app]. now rewrite app_nil_r.
Qed.

(** C4. In every turn of the loop, however it ends: when line 112 raises,
    the turn computes no distance and prints nothing; otherwise line 134
    computes the list of pairwise distances, and the line of the
    people-distance alarm is printed exactly when the alarm is not disabled,
    that list is not empty, and its minimum is strictly below
    [min_distance].  With no distance computed nothing is printed, and the
    [ValueError] of [min] on an empty list is never raised. *)
Theorem distance_alarm_printed_iff_below_minimum (args : Args) (conf : Conf)
    (raw : cframe) (key : Z) (m : Machine) (out : list line) :
  exists o m' new,
    iteration args conf raw key m out = (o, m', out ++ new) /\
    o <> Raise (ValueError EmptyMin) /\
    if turn_ragged args raw (app m)
    then distances (loc m') = distances (loc m) /\ new = []
    else (exists f_in dbs,
             distances (loc m')
             = snd (draw_distance_between_people f_in dbs (170 # 100)
                      (min_distance_allowed conf))) /\
         filter is_distance_alarm new
         = match distances (loc m') with
           | [] => []
           | d :: ds =>
               let least := fold_left (fun m y => if Qltb y m then y else m) ds d in
               if negb (no_alarm_distance args) && Qltb least (min_distance_allowed conf)
               then [DistanceAlarm (round least 2) (min_distance_allowed conf)]
               else []
           end.
Proof.
  destruct (turn_run args conf raw key m out)
    as (o & m' & new & E & _ & _ & _ & _ & _ & _ & _ & R).
  exists o, m', new. split; [exact E|]. split.
  - intros ->.
    assert (X : outcome_of (iteration args conf raw key m out) = Raise (ValueError EmptyMin))
      by now rewrite E.
    apply turn_outcomes in X. destruct X as [X|X]; discriminate X.
  - destruct (turn_ragged args raw (app m)).
    + destruct R as (_ & N & _ & _ & D & _). split; [exact D|exact N].
    + destruct R as (_ & D & _ & -> & _). split; [exact D|].
      apply turn_alarm_lines.
Qed.

(** X9. In every turn, a people-distance alarm is printed exactly when line
    112 does not raise, the alarm is not disabled and some distance computed
    in the turn is strictly below the minimum allowed. *)
Theorem distance_alarm_iff_some_pair_is_too_close (args : Args) (conf : Conf)
    (raw : cframe) (key : Z) (m : Machine) (out : list line) :
  exists o m' new,
    iteration args conf raw key m out = (o, m', out ++ new) /\
    ((exists found limit, In (DistanceAlarm found limit) new) <->
     (turn_ragged args raw (app m) = false /\
      no_alarm_distance args = false /\
      exists d, In d (distances (loc m')) /\ (d < min_distance_allowed conf)%Q)).
Proof.
  destruct (turn_run args conf raw key m out)
    as (o & m' & new & E & _ & _ & _ & _ & _ & _ & _ & R).
  exists o, m', new. split; [exact E|]. clear E.
  destruct (turn_ragged args raw (app m)).
  - destruct R as (_ & -> & _). split.
    + intros (f & l & []).
    + intros (X & _). discriminate X.
  - destruct R as (_ & _ & _ & -> & _).
    set (errs := map ErrorLine _).
    assert (NE : forall f l, ~ In (DistanceAlarm f l) errs).
    { intros f l I. subst errs. apply in_map_iff in I. destruct I as (e & X & _). discriminate. }
    assert (NC : forall f l, ~ In (DistanceAlarm f l) (count_alarm_of args conf raw)).
    { intros f l I. unfold count_alarm_of in I.
      destruct (_ && _); [destruct I as [X|[]]; discriminate|exact I]. }
    clearbody errs. unfold distance_alarm_of.
    destruct (distances (loc m')) as [|d ds].
    + split.
      * intros (f & l & I). apply in_app_or in I. destruct I as [I|I]; [now apply NE in I|].
        apply in_app_or in I. destruct I as [I|[]]. now apply NC in I.
      * intros (_ & _ & d & [] & _).
    + destruct (least_is_a_lower_bound ds d) as [I L]. cbn zeta in I, L. cbn zeta.
      set (least := fold_left _ ds d) in *. clearbody least.
      split.
      * intros (f & l & J). apply in_app_or in J. destruct J as [J|J]; [now apply NE in J|].
        apply in_app_or in J. destruct J as [J|J]; [now apply NC in J|].
        destruct (negb (no_alarm_distance args)) eqn:F; cbn [andb] in J; [|destruct J].
        destruct (Qltb least (min_distance_allowed conf)) eqn:C; [|destruct J].
        split; [reflexivity|]. split; [now apply negb_true_iff|].
        exists least. split; [exact I|now apply Qltb_lt].
      * intros (_ & F & y & Iy & Ly).
        exists (round least 2), (min_distance_allowed conf).
        apply in_or_app. right. apply in_or_app. right.
        rewrite F. cbn [negb andb].
        assert (C : Qltb least (min_distance_allowed conf) = true).
        { apply Qltb_lt. eapply Qle_lt_trans; [apply L; exact Iy|exact Ly]. }
        rewrite C. now left.
Qed.

(** X15. In every turn, however it ends, the lines of the people-count alarm
    that the turn prints are: none when line 112 raises; otherwise exactly
    one line, with the current count and the maximum, when the alarm is not
    disabled and the number of boxes of the people detector is strictly
    greater than [max_people], and none when it is not greater or the alarm
    is disabled. *)
Theorem count_alarm_once_unless_detection_raises (args : Args) (conf : Conf)
    (raw : cframe) (key : Z) (m : Machine) (out : list line) :
  let people_count := length (hog_detectMultiScale (cv_resize raw)) in
  exists o m' new,
    iteration args conf raw key m out = (o, m', out ++ new) /\
    hog_boxes (loc m') = hog_detectMultiScale (cv_resize raw) /\
    filter is_count_alarm new
    = (if turn_ragged args raw (app m) then []
       else if negb (no_alarm_count args) &&
               Qltb (max_people_allowed conf) (inject_Z (Z.of_nat people_count))
            then [CountAlarm people_count (max_people_allowed conf)]
            else []).
Proof.
  cbn zeta.
  destruct (turn_run args conf raw key m out)
    as (o & m' & new & E & HB & _ & _ & _ & _ & _ & _ & R).
  exists o, m', new. split; [exact E|]. split; [exact HB|].
  destruct (turn_ragged args raw (app m)).
  - destruct R as (_ & -> & _). reflexivity.
  - destruct R as (_ & _ & _ & -> & _).
    exact (proj1 (turn_alarm_lines args conf raw _ _)).
Qed.

Lemma start_loop_count_alarms (args : Args) (conf : Conf) (stream : list (cframe * Z))
    (m : Machine) (out : list line) :
  let r := start_loop args conf stream m out in
  exists n new,
    console_of r = out ++ new /\
    filter is_count_alarm new
    = flat_map (fun rk => count_alarm_of args conf (fst rk))
        (firstn n (processed stream)) /\
    (outcome_of r = Return tt -> firstn n (processed stream) = processed stream).
Proof.
  cbn zeta. revert m out.
  induction stream as [|[raw key] rest IH]; intros m out.
  - exists 0%nat, []. cbn. split; [now rewrite app_nil_r|]. split; reflexivity.
  - rewrite start_loop_cons.
    destruct (turn_run args conf raw key m out)
      as (o & m' & new & E & _ & _ & _ & _ & _ & _ & _ & R).
    pose proof (turn_goes_on args conf raw key m out) as G.
    rewrite E in *. unfold outcome_of in G. cbn [fst] in G.
    cbn [processed].
    destruct (turn_ragged args raw (app m)).
    + destruct R as (-> & -> & _). exists 0%nat, [].
      unfold console_of, outcome_of. cbn [fst snd firstn flat_map].
      split; [reflexivity|]. split; [reflexivity|discriminate].
    + destruct R as (_ & _ & _ & N & _).
      assert (C : filter is_count_alarm new = count_alarm_of args conf raw)
        by (rewrite N; exact (proj1 (turn_alarm_lines args conf raw _ _))).
      clear N.
      destruct o as [[]|e].
      * specialize (G true eq_refl). symmetry in G. apply negb_true_iff in G. rewrite G.
        destruct (IH m' (out ++ new)) as (n & new' & E1 & C1 & R1).
        exists (S n), (new ++ new'). split; [now rewrite E1, app_assoc|].
        cbn [firstn flat_map fst]. rewrite filter_app, C, C1.
        split; [reflexivity|]. intros Y. now rewrite (R1 Y).
      * specialize (G false eq_refl). symmetry in G. apply negb_false_iff in G. rewrite G.
        exists 1%nat, new. unfold console_of. cbn [fst snd firstn flat_map].
        rewrite app_nil_r. split; [reflexivity|]. split; [exact C|reflexivity].
      * exists 1%nat, new. unfold console_of, outcome_of. cbn [fst snd].
        split; [reflexivity|]. split; [|discriminate].
        destruct (quit_key key); cbn [firstn flat_map fst]; now rewrite app_nil_r.
Qed.

(** X8. The people-count alarms of a whole run are, in order, one line for
    each frame that reaches line 145 on which the people detector finds more
    boxes than the maximum, and none for the other frames: the frames that
    reach it are all the processed ones when [start] returns, and the first
    ones of them when it raises. *)
Theorem count_alarms_of_a_run (args : Args) (conf : Conf)
    (stream : list (cframe * Z)) (a : App) (out : list line) :
  let r := start args conf stream a out in
  exists n new,
    console_of r = out ++ new /\
    filter is_count_alarm new
    = flat_map (fun rk => count_alarm_of args conf (fst rk))
        (firstn n (processed stream)) /\
    (outcome_of r = Return tt -> firstn n (processed stream) = processed stream).
Proof. exact (start_loop_count_alarms args conf stream (mkMachine a locals0) out). Qed.

End AlarmFacts.

(** ** Object detection and the background field *)

Section BackgroundFacts.

Context `{V : Vision}.

(** X16. What [do_object_detection] does, whatever the contours: when the
    object has a baseline contour and the contours of the frame are of
    different lengths, the test of line 72 raises [ValueError], nothing is
    printed and nothing is returned; otherwise every [IndexError] that
    [np.delete] raises for a matching baseline contour is caught and printed,
    and the boxes returned are those of the whole contour list of the
    frame. *)
Theorem detection_raises_only_at_the_membership_test (mog : bool) (a : App)
    (g : raster) (out : list line) :
  exists a1 segs,
    segs = contours_work (cv_absdiff g (background a1)) RETR_EXTERNAL true /\
    do_object_detection mog (set_gray (Some g) a) out
    = (if ragged_hit (contours_background a) segs
       then (Raise (ValueError RaggedIsin), a1, out)
       else (Return (normalize_small_boxes segs 200), a1,
             out ++ map ErrorLine (index_errors (contours_background a) segs))) /\
    forall contour e,
      In contour (contours_background a) ->
      Np.any_isin contour segs = Return true ->
      Np.delete (Np.ravel segs) (Np.ints contour) = Raise e ->
      ragged_hit (contours_background a) segs = false /\
      (exists i n, e = IndexError i n) /\
      In (ErrorLine e) (map ErrorLine (index_errors (contours_background a) segs)).
Proof.
  pose proof (do_object_detection_run mog (set_gray (Some g) a) g out eq_refl) as E.
  cbn zeta in E.
  eexists _, _. split; [reflexivity|]. split; [exact E|].
  intros contour e I Hit D. split; [|split].
  - unfold ragged_hit. unfold Np.any_isin in Hit.
    destruct (Np.same_length _); [reflexivity|discriminate Hit].
  - eapply delete_raises_index_error. exact D.
  - apply in_map. unfold index_errors. apply in_flat_map.
    exists contour. split; [exact I|]. rewrite Hit, D. now left.
Qed.

Lemma iterations_cons (args : Args) (conf : Conf) (raw : cframe) (key : Z)
    (rest : list (cframe * Z)) (m : Machine) (out : list line) :
  iterations args conf ((raw, key) :: rest) m out
  = match iteration args conf raw key m out with
    | (Return true, m', out') => iterations args conf rest m' out'
    | (Return false, m', out') => (Return false, m', out')
    | (Raise e, m', out') => (Raise e, m', out')
    end.
Proof.
  cbn [iterations]. unfold bind.
  destruct (iteration args conf raw key m out) as [[[[]|e] m'] out']; reflexivity.
Qed.

(** A property of the machine that every turn keeps, however it ends, holds
    of what the turns over a stream leave. *)
Lemma iterations_invariant (args : Args) (conf : Conf) (P : Machine -> Prop) :
  (forall raw key m out,
      P m -> P (state_of (iteration args conf raw key m out))) ->
  forall stream m out,
    P m -> P (state_of (iterations args conf stream m out)).
Proof.
  intros Pturn. induction stream as [|[raw key] rest IH]; intros m out Pm.
  - exact Pm.
  - rewrite iterations_cons. pose proof (Pturn raw key m out Pm) as P1.
    unfold state_of in *.
    destruct (iteration args conf raw key m out) as [[[[]|e] m'] out'];
      cbn [fst snd] in *; [now apply IH|exact P1|exact P1].
Qed.

Lemma turn_keeps_background (args : Args) (conf : Conf) (raw : cframe) (key : Z)
    (m : Machine) (out : list line) :
  use_mog2 args = false ->
  background (app (state_of (iteration args conf raw key m out))) = background (app m).
Proof.
  intros Off.
  destruct (turn_run args conf raw key m out) as (o & m' & new & E & _ & _ & BG & _).
  rewrite E. unfold state_of. cbn [fst snd]. rewrite BG.
  unfold turn_background. now rewrite Off.
Qed.

(** C10. With the adaptive-background toggle on, every call of
    [do_object_detection] assigns the subtractor's output to the background
    field before anything in it can raise, and a run over at least one frame
    does not depend on the still background the object was built with; with
    the toggle off, the background field after any number of turns, and
    when [start] returns or raises, is the one the run began with. *)
Theorem background_switch_is_one_way (args : Args) (conf : Conf) :
  (forall (a : App) (g : raster) (out : list line),
      background (state_of (do_object_detection true (set_gray (Some g) a) out))
      = snd (BackgroundSubtractor.work (subtractor a) g)) /\
  (use_mog2 args = true ->
   forall (raw : cframe) (key : Z) (rest : list (cframe * Z)) (a : App)
          (still1 still2 : raster) (out : list line),
     start args conf ((raw, key) :: rest) (set_background still1 a) out
     = start args conf ((raw, key) :: rest) (set_background still2 a) out) /\
  (use_mog2 args = false ->
   forall (stream : list (cframe * Z)) (a : App) (out : list line),
     background (app (state_of (iterations args conf stream (mkMachine a locals0) out)))
     = background a /\
     background (app (state_of (start args conf stream a out))) = background a).
Proof.
  split; [|split].
  - intros a g out.
    rewrite (do_object_detection_run true _ g) by reflexivity. cbn zeta.
    destruct (ragged_hit _ _); reflexivity.
  - intros On raw key rest a still1 still2 out.
    unfold start. rewrite !start_loop_cons, !iteration_run. cbn zeta.
    rewrite body_segments, !exec_app.
    pose proof (detection_run args conf raw (mkMachine (set_background still1 a) locals0) out)
      as E1.
    pose proof (detection_run args conf raw (mkMachine (set_background still2 a) locals0) out)
      as E2.
    cbn zeta in E1, E2. rewrite On in E1, E2.
    unfold bind. rewrite E1, E2. reflexivity.
  - intros Off stream a out. split.
    + apply (iterations_invariant args conf (fun m => background (app m) = background a));
        [|reflexivity].
      intros raw key m o H. now rewrite turn_keeps_background.
    + apply (start_loop_invariant args conf
               (fun m _ => background (app m) = background a) (fun _ => True)).
      * intros m o H. exact H.
      * intros raw key m o H. split; [|trivial]. now rewrite turn_keeps_background.
      * reflexivity.
Qed.

End BackgroundFacts.

(** ** The heatmap in the loop *)

Section HeatmapLoopFacts.

Context `{V : Vision}.

Lemma slice_get_length {A} (l : list A) (lo hi : Z) :
  length (slice_get l lo hi)
  = (clamp_index (length l) hi - clamp_index (length l) lo)%nat.
Proof.
  unfold slice_get. rewrite length_firstn, length_skipn.
  assert (B : forall i, (clamp_index (length l) i <= length l)%nat)
    by (intros i; unfold clamp_index; destruct (i <? 0); lia).
  pose proof (B lo). pose proof (B hi). lia.
Qed.

Lemma slice_is_empty (n : nat) (lo len : Z) :
  0 <= lo -> 0 <= len ->
  ((clamp_index n (lo + len) - clamp_index n lo =? 0)%nat
   = negb ((0 <? len) && (lo <? Z.of_nat n))).
Proof.
  intros L W. unfold clamp_index.
  destruct (lo <? 0) eqn:A; [apply Z.ltb_lt in A; lia|].
  destruct (lo + len <? 0) eqn:B; [apply Z.ltb_lt in B; lia|].
  apply eq_true_iff_eq.
  rewrite negb_true_iff, andb_false_iff, Nat.eqb_eq, !Z.ltb_ge. lia.
Qed.

(** The boxes with a corner and a size that are not negative whose slice of
    the heatmap is empty: those of no width or no height, and those that
    start past the right or the bottom edge. *)
Lemma empty_slice_cases (rows cols : nat) (heatmap : raster) (x y w h : Z) :
  has_shape rows cols heatmap ->
  0 <= x -> 0 <= y -> 0 <= w -> 0 <= h ->
  Np.empty_slice heatmap (x, y, w, h)
  = negb ((0 <? w) && (0 <? h) && (x <? Z.of_nat cols) && (y <? Z.of_nat rows)).
Proof.
  intros [L F] X Y W H. unfold Np.empty_slice.
  rewrite !slice_get_length, !slice_is_empty by assumption. rewrite L.
  destruct heatmap as [|row rest].
  - cbn in L. subst rows. cbn [hd length].
    replace (y <? Z.of_nat 0) with false by (symmetry; apply Z.ltb_ge; lia).
    now rewrite !andb_false_r.
  - cbn [hd]. inversion F as [|? ? Hrow _]. rewrite Hrow.
    destruct (0 <? w), (0 <? h), (x <? Z.of_nat cols), (y <? Z.of_nat rows); reflexivity.
Qed.

(** X13. One box with a corner and a size that are not negative, given to
    [draw_heatmap]: when it has a width and a height and starts inside the
    raster, it brightens exactly the pixels of the raster that it covers,
    each by 13 up to 255, what of it lies beyond the right or the bottom edge
    being clipped, and no other pixel changes; when it is empty or starts
    past the right or the bottom edge, line 89 raises [TypeError] and the
    heatmap is as before. *)
Theorem box_brightens_the_pixels_it_covers_or_raises (rows cols : nat) (a : App)
    (x y w h : Z) (out : list line) :
  Cv.nearest cv_round ->
  pixels_in_range (heatmap a) ->
  has_shape rows cols (heatmap a) ->
  0 <= x -> 0 <= y -> 0 <= w -> 0 <= h ->
  self_draw_heatmap [(x, y, w, h)] a out
  = if (0 <? w) && (0 <? h) && (x <? Z.of_nat cols) && (y <? Z.of_nat rows)
    then (Return tt,
          set_heatmap
            (mapi (fun i row =>
                     mapi (fun j p =>
                             if covers (x, y, w, h) i j then Z.min 255 (p + 13) else p)
                          0 row)
                  0 (heatmap a)) a,
          out)
    else (Raise TypeError, a, out).
Proof.
  intros N R Sh X Y W H. rewrite self_draw_heatmap_run. cbn [draw_run].
  rewrite (empty_slice_cases rows cols) by assumption.
  destruct (_ && _); cbn [negb fst snd].
  - now rewrite (box_pixels_by_comparison cv_round N) by assumption.
  - destruct a. reflexivity.
Qed.

Lemma draw_run_return (rnd : Q -> Z) (boxes : list box) (heatmap : raster) :
  fst (draw_run rnd heatmap boxes) = Return tt ->
  snd (draw_run rnd heatmap boxes) = draw_heatmap rnd heatmap boxes.
Proof.
  unfold draw_heatmap. revert heatmap.
  induction boxes as [|b boxes IH]; intros heatmap; cbn [draw_run fold_left];
    [reflexivity|].
  destruct (Np.empty_slice heatmap b); [discriminate|]. apply IH.
Qed.

Lemma iterations_counter (args : Args) (conf : Conf) (pre : list (cframe * Z))
    (m : Machine) (out : list line) :
  outcome_of (iterations args conf pre m out) = Return true ->
  frame_counter (loc (state_of (iterations args conf pre m out)))
  = frame_counter (loc m) + Z.of_nat (length pre).
Proof.
  revert m out. induction pre as [|[raw key] pre IH]; intros m out.
  - intros _. cbn. lia.
  - rewrite iterations_cons.
    destruct (turn_run args conf raw key m out) as (o & m' & new & E & _ & FC & _).
    rewrite E. destruct o as [[]|e]; try discriminate.
    intros T. rewrite (IH _ _ T), FC. cbn [length]. lia.
Qed.

(** X17. At the top of the turn that follows the turns over [pre] the frame
    counter is the number of those turns.  When that number is not divisible
    by 10 the turn leaves the heatmap as it is, however it ends.  When it is
    divisible by 10 (so in the first turn, whose counter is 0): a turn in
    which line 112 raises leaves the heatmap as it is; a turn that reaches
    line 160 darkens it and brightens it under the boxes up to the first one
    whose slice is empty; a turn that returns has darkened it and brightened
    it under all the boxes. *)
Theorem heatmap_schedule_of_a_turn (args : Args) (conf : Conf)
    (pre : list (cframe * Z)) (raw : cframe) (key : Z) (a : App) (out : list line) :
  let top := iterations args conf pre (mkMachine a locals0) out in
  let turn := iteration args conf raw key (state_of top) (console_of top) in
  let before := heatmap (app (state_of top)) in
  let after := heatmap (app (state_of turn)) in
  let boxes := small_boxes (loc (state_of turn)) in
  outcome_of top = Return true ->
  frame_counter (loc (state_of top)) = Z.of_nat (length pre) /\
  (Z.of_nat (length pre) mod 10 <> 0 -> after = before) /\
  (Z.of_nat (length pre) mod 10 = 0 ->
   if turn_ragged args raw (app (state_of top))
   then after = before
   else after = snd (draw_run cv_round (darken_heatmap cv_round before) boxes) /\
        forall go_on,
          outcome_of turn = Return go_on ->
          after = draw_heatmap cv_round (darken_heatmap cv_round before) boxes).
Proof.
  cbn zeta. intros T. apply iterations_counter in T. cbn in T.
  split; [exact T|].
  set (top := iterations args conf pre (mkMachine a locals0) out) in *.
  destruct (turn_run args conf raw key (state_of top) (console_of top))
    as (o & m' & new & E & _ & _ & _ & _ & _ & _ & _ & R).
  rewrite E. rewrite T in R. unfold heat_update in R.
  unfold state_of, outcome_of in *. cbn [fst snd] in *.
  split.
  - intros ND. apply Z.eqb_neq in ND.
    destruct (turn_ragged args raw _).
    + apply R.
    + destruct R as (_ & _ & _ & _ & H & _). rewrite ND in H. exact H.
  - intros D. apply Z.eqb_eq in D.
    destruct (turn_ragged args raw _).
    + apply R.
    + destruct R as (_ & _ & _ & _ & H & O). rewrite D in H, O.
      split; [exact H|].
      intros go_on Y. rewrite H. apply draw_run_return.
      destruct (fst (draw_run _ _ _)) as [[]|e]; [reflexivity|].
      rewrite O in Y. discriminate Y.
Qed.

Lemma darken_black (heatmap : raster) :
  Cv.nearest cv_round -> black heatmap -> black (darken_heatmap cv_round heatmap).
Proof.
  intros N B. rewrite darken_heatmap_pointwise. unfold black.
  apply Forall_map. revert B. apply Forall_impl. intros row Brow.
  apply Forall_map. revert Brow. apply Forall_impl. intros p ->.
  pose proof (darken_px_tenths cv_round N 0 ltac:(lia)) as T. cbn zeta in T. lia.
Qed.

(** X14. With a back end that finds no contour, so that no box is ever drawn,
    [start] returns, and the heatmap of a run that starts black is black
    then. *)
Theorem still_scene_keeps_the_heatmap_black (args : Args) (conf : Conf)
    (stream : list (cframe * Z)) (a : App) (out : list line) :
  Cv.nearest cv_round ->
  (forall img mode shadows, contours_work img mode shadows = []) ->
  normalize_small_boxes [] 200 = [] ->
  black (heatmap a) ->
  exists m out',
    start args conf stream a out = (Return tt, m, out') /\ black (heatmap (app m)).
Proof.
  intros N Still Norm B.
  destruct (start_loop_invariant args conf (fun m _ => black (heatmap (app m)))
              (fun _ => False))
    with (stream := stream) (m := mkMachine a locals0) (out := out) as [Bl Ne].
  - intros m o H. exact H.
  - intros raw key m o H.
    destruct (turn_run args conf raw key m o)
      as (r & m' & new & E & _ & _ & _ & _ & _ & _ & _ & R).
    rewrite E. unfold state_of, outcome_of. cbn [fst snd].
    unfold turn_ragged, turn_contours in R. rewrite Still in R.
    unfold ragged_hit in R. cbn [Np.same_length negb andb] in R.
    destruct R as (SB & _ & _ & _ & HM & O).
    rewrite SB, Norm in HM, O. unfold heat_update in HM, O.
    destruct (_ =? 0); cbn [draw_run fst snd] in HM, O.
    + rewrite HM. split; [now apply darken_black|]. intros e X. congruence.
    + rewrite HM. split; [exact H|]. intros e X. congruence.
  - exact B.
  - unfold start.
    destruct (start_loop args conf stream (mkMachine a locals0) out) as [[[[]|e] m] out'].
    + exists m, out'. split; [reflexivity|exact Bl].
    + destruct (Ne e eq_refl).
Qed.

End HeatmapLoopFacts.

Lemma has_shape_resize_nearest (rows cols : nat) (m : raster) :
  has_shape rows cols (Fake.resize_nearest rows cols m).
Proof.
  unfold Fake.resize_nearest. split.
  - now rewrite length_map, length_seq.
  - apply Forall_map, Forall_forall. intros i _. now rewrite length_map, length_seq.
Qed.

Lemma fake_shapes (people : list box) (found : list contour) (dists : list Q) :
  VisionShapes (V := Fake.vision people found dists).
Proof.
  split; try reflexivity.
  - intros g. apply has_shape_resize_nearest.
  - intros f rows cols E. cbn in E. inversion E. apply has_shape_resize_nearest.
  - intros s g rows cols S. apply has_shape_map, S.
Qed.

Lemma demo_shapes : VisionShapes (V := Fake.demo).
Proof. apply fake_shapes. Qed.

(** The resolution in the first turn of a run with the stand-in back end,
    once the frame is resized and gray. *)
Lemma resolution_holds_once_resized_and_gray_witness :
  iterations (V := Fake.demo) Fake.args0 Fake.conf0 []
    (mkMachine (init (V := Fake.demo) Fake.tiny 0%nat) locals0) []
  = (Return true, mkMachine (init (V := Fake.demo) Fake.tiny 0%nat) locals0, []) /\
  (2 <= 2)%nat /\
  resolution (V := Fake.demo)
    (app (state_of
            (exec (V := Fake.demo) (firstn 2 (body Fake.args0 Fake.conf0))
               (with_app (set_frame (V := Fake.demo) (Some Fake.tiny))
                  (mkMachine (init (V := Fake.demo) Fake.tiny 0%nat) locals0)) []))).
Proof.
  split; [reflexivity|]. split; [lia|].
  exact (resolution_holds_once_resized_and_gray (V := Fake.demo) demo_shapes
           Fake.args0 Fake.conf0 Fake.tiny 0%nat [] Fake.tiny [] _ [] 2%nat
           eq_refl (le_n 2)).
Defined.

(** Right after the read on line 104 the frame has the size the capture
    delivers, here 640 by 480: the resolution does not hold at that point. *)
Lemma resolution_fails_right_after_read :
  ~ (forall k : nat,
        resolution (V := Fake.demo)
          (app (state_of
                  (exec (V := Fake.demo) (firstn k (body Fake.args0 Fake.conf0))
                     (with_app (set_frame (V := Fake.demo) (Some Fake.vga))
                        (mkMachine Fake.app0 locals0)) [])))).
Proof.
  intros H. destruct (H 0%nat) as ((f & F & S) & _).
  cbn [firstn exec] in F, S. unfold ret, state_of in F. cbn in F.
  injection F as <-.
  vm_compute in S. discriminate S.
Qed.

(** ** Runs with the stand-in back ends *)

(** C1. A run in which the difference image yields the very contour that
    the still background has: in the first turn of [start], and on the
    object with the frame itself as its grayscale, the contour stays in the
    list (the deletion on line 74 only raises an index error, which is
    printed), and the boxes returned are its bounding box. *)
Theorem matching_contour_is_not_removed :
  contours_background Fake.app0 = [Fake.square] /\
  Np.any_isin Fake.square [Fake.square] = Return true /\
  do_object_detection (V := Fake.demo) false Fake.app1 []
  = (Return [Fake.bounding_rect Fake.square], Fake.app1,
     [ErrorLine (IndexError 10 8)]) /\
  do_object_detection (V := Fake.demo) false (set_gray (Some Fake.tiny) Fake.app0) []
  = (Return [Fake.bounding_rect Fake.square], set_gray (Some Fake.tiny) Fake.app0,
     [ErrorLine (IndexError 10 8)]).
Proof.
  split; [reflexivity|]. split; [reflexivity|]. split.
  - rewrite (do_object_detection_run (V := Fake.demo) false Fake.app1 _ [] eq_refl).
    reflexivity.
  - rewrite (do_object_detection_run (V := Fake.demo) false
               (set_gray (Some Fake.tiny) Fake.app0) Fake.tiny [] eq_refl).
    reflexivity.
Qed.

(** A deletion that succeeds removes nothing either: its result is dropped. *)
Example matching_contour_survives_a_successful_delete :
  Np.delete (Np.ravel [[(0, 1)]]) (Np.ints [(0, 1)]) = Return [] /\
  do_object_detection (V := Fake.dot) false
    (set_gray (Some Fake.tiny) (init (V := Fake.dot) Fake.tiny 0%nat)) []
  = (Return [(0, 1, 1, 1)],
     set_gray (Some Fake.tiny) (init (V := Fake.dot) Fake.tiny 0%nat), []).
Proof.
  split; [reflexivity|].
  rewrite (do_object_detection_run (V := Fake.dot) false
             (set_gray (Some Fake.tiny) (init (V := Fake.dot) Fake.tiny 0%nat))
             Fake.tiny [] eq_refl).
  reflexivity.
Qed.

(** C5. Two contours of different lengths in the frame difference, and a
    baseline contour to test: the membership test of line 72, which is
    outside the [try], raises [ValueError]; [except IndexError] does not
    catch it, nothing is printed, and the exception leaves
    [do_object_detection]. *)
Theorem value_error_of_the_membership_test_escapes :
  contours_background Fake.ragged1 = [Fake.square; Fake.tri] /\
  Np.any_isin Fake.square [Fake.square; Fake.tri] = Raise (ValueError RaggedIsin) /\
  do_object_detection (V := Fake.ragged) false Fake.ragged1 []
  = (Raise (ValueError RaggedIsin), Fake.ragged1, []).
Proof.
  split; [reflexivity|]. split; [reflexivity|].
  rewrite (do_object_detection_run (V := Fake.ragged) false Fake.ragged1 _ [] eq_refl).
  reflexivity.
Qed.

(** The first turn of a run whose frame difference has two contours of
    different lengths. *)
Lemma ragged_first_turn :
  exists m',
    iteration (V := Fake.ragged) Fake.args0 Fake.conf0 Fake.tiny (-1)
      (mkMachine Fake.ragged0 locals0) []
    = (Raise (ValueError RaggedIsin), m', []) /\
    hog_boxes (loc m') = [(0, 0, 5, 5); (10, 0, 5, 5); (20, 0, 5, 5)] /\
    frame_counter (loc m') = 0 /\
    heatmap (app m') = heatmap Fake.ragged0.
Proof.
  destruct (turn_run (V := Fake.ragged) Fake.args0 Fake.conf0 Fake.tiny (-1)
              (mkMachine Fake.ragged0 locals0) [])
    as (o & m' & new & E & HB & FC & _ & _ & _ & _ & _ & R).
  change (turn_ragged (V := Fake.ragged) Fake.args0 Fake.tiny
            (app (mkMachine Fake.ragged0 locals0))) with true in R.
  destruct R as (-> & -> & H & _).
  exists m'. split; [exact E|]. split; [exact HB|]. split; [exact FC|exact H].
Qed.

(** C3. A frame in which the people detector finds three boxes, for a
    maximum of two and with the count alarm enabled, while the frame
    difference has two contours of different lengths: line 112 raises
    [ValueError], the run ends there, and no count alarm is printed. *)
Theorem count_alarm_is_lost_when_detection_raises :
  no_alarm_count Fake.args0 = false /\
  (max_people_allowed Fake.conf0 < inject_Z (Z.of_nat 3))%Q /\
  exists m',
    start (V := Fake.ragged) Fake.args0 Fake.conf0 [(Fake.tiny, -1)] Fake.ragged0 []
    = (Raise (ValueError RaggedIsin), m', []) /\
    length (hog_boxes (loc m')) = 3%nat.
Proof.
  split; [reflexivity|]. split; [reflexivity|].
  destruct ragged_first_turn as (m' & E & HB & _).
  exists m'. split; [|now rewrite HB].
  apply (start_of_raising_turn (V := Fake.ragged)). exact E.
Qed.

(** C8. Two first turns, whose frame counter is 0, that do not darken and
    then brighten the heatmap.  With two contours of different lengths in
    the frame difference, line 112 raises [ValueError] and the heatmap is
    left as it was.  With one contour whose box starts past the right edge
    of the heatmap, line 161 darkens the heatmap and line 89 raises
    [TypeError] on the empty slice: no box is brightened. *)
Theorem heatmap_update_is_lost_when_the_turn_raises :
  frame_counter (loc (mkMachine Fake.ragged0 locals0)) mod 10 = 0 /\
  (exists m',
      start (V := Fake.ragged) Fake.args0 Fake.conf0 [(Fake.tiny, -1)] Fake.ragged0 []
      = (Raise (ValueError RaggedIsin), m', []) /\
      heatmap (app m') = heatmap Fake.ragged0) /\
  (exists m',
      start (V := Fake.far) Fake.args0 Fake.conf0 [(Fake.tiny, -1)] Fake.far0 []
      = (Raise TypeError, m', [ErrorLine (IndexError 400 4)]) /\
      small_boxes (loc m') = [(400, 0, 5, 5)] /\
      heatmap (app m') = darken_heatmap round_half_even (heatmap Fake.far0)).
Proof.
  split; [reflexivity|]. split.
  - destruct ragged_first_turn as (m' & E & _ & _ & H).
    exists m'. split; [|exact H].
    apply (start_of_raising_turn (V := Fake.ragged)). exact E.
  - destruct (turn_run (V := Fake.far) Fake.args0 Fake.conf0 Fake.tiny (-1)
                (mkMachine Fake.far0 locals0) [])
      as (o & m' & new & E & _ & _ & _ & _ & _ & _ & _ & R).
    change (turn_ragged (V := Fake.far) Fake.args0 Fake.tiny
              (app (mkMachine Fake.far0 locals0))) with false in R.
    destruct R as (SB & (f_in & dbs & D) & _ & N & H & O).
    change (normalize_small_boxes (Vision := Fake.far) _ 200)
      with [(400, 0, 5, 5)] in SB.
    rewrite SB in H, O.
    change (distances (loc m') = []) in D.
    rewrite D in N.
    assert (Em : Np.empty_slice
                   (darken_heatmap round_half_even (heatmap Fake.far0)) (400, 0, 5, 5)
                 = true).
    { rewrite (empty_slice_cases 300 350); try lia; [reflexivity|].
      apply (has_shape_darken (V := Fake.far)).
      apply (init_sized (V := Fake.far) (fake_shapes _ _ _)). }
    unfold heat_update in H, O.
    change (frame_counter (loc (mkMachine Fake.far0 locals0)) mod 10 =? 0)
      with true in H, O.
    cbn [draw_run app] in H, O.
    change (cv_round (Vision := Fake.far)) with round_half_even in H, O.
    rewrite Em in H, O. cbn [fst snd] in H, O.
    exists m'. split; [|split; [exact SB|exact H]].
    apply (start_of_raising_turn (V := Fake.far)). rewrite E, O, N. reflexivity.
Qed.

(** The one-way switch on two runs that differ in the still background, and
    the frozen background of a run with the toggle off. *)
Lemma background_switch_is_one_way_witness :
  use_mog2 Fake.args_mog2 = true /\
  start (V := Fake.demo) Fake.args_mog2 Fake.conf0 [(Fake.tiny, -1)]
    (set_background Fake.tiny Fake.app0) []
  = start (V := Fake.demo) Fake.args_mog2 Fake.conf0 [(Fake.tiny, -1)]
      (set_background [[9; 9]; [9; 9]] Fake.app0) [] /\
  use_mog2 Fake.args0 = false /\
  background
    (app (state_of (start (V := Fake.demo) Fake.args0 Fake.conf0 [(Fake.tiny, -1)]
                      Fake.app0 [])))
  = background Fake.app0.
Proof.
  split; [reflexivity|]. split.
  - exact (proj1 (proj2 (background_switch_is_one_way (V := Fake.demo)
                           Fake.args_mog2 Fake.conf0))
             eq_refl Fake.tiny (-1) [] Fake.app0 Fake.tiny [[9; 9]; [9; 9]] []).
  - split; [reflexivity|].
    exact (proj2 (proj2 (proj2 (background_switch_is_one_way (V := Fake.demo)
                                  Fake.args0 Fake.conf0))
                    eq_refl [(Fake.tiny, -1)] Fake.app0 [])).
Defined.

(** Two runs over the same two frames that differ in everything but the
    adaptive toggle. *)
Lemma only_the_toggle_shapes_the_rasters_witness :
  use_mog2 Fake.args0 = use_mog2 Fake.args1 /\
  outcome_of (start (V := Fake.demo) Fake.args0 Fake.conf0
                [(Fake.tiny, -1); (Fake.vga, 113)] Fake.app0 [])
  = outcome_of (start (V := Fake.demo) Fake.args1 Fake.conf1
                  [(Fake.tiny, -1); (Fake.vga, 113)] Fake.app0 []) /\
  persistent (state_of (start (V := Fake.demo) Fake.args0 Fake.conf0
                          [(Fake.tiny, -1); (Fake.vga, 113)] Fake.app0 []))
  = persistent (state_of (start (V := Fake.demo) Fake.args1 Fake.conf1
                            [(Fake.tiny, -1); (Fake.vga, 113)] Fake.app0 [])).
Proof.
  split; [reflexivity|].
  exact (only_the_toggle_shapes_the_rasters (V := Fake.demo) Fake.args0 Fake.args1
           Fake.conf0 Fake.conf1 [(Fake.tiny, -1); (Fake.vga, 113)] Fake.app0 [] []
           eq_refl).
Defined.

(** A box of 3 by 3 at (1, 1) on a heatmap of 2 by 2 brightens the one pixel
    it covers; a box that starts at column 2 raises. *)
Lemma box_brightens_the_pixels_it_covers_or_raises_witness :
  Cv.nearest (cv_round (Vision := Fake.demo)) /\
  pixels_in_range [[0; 250]; [15; 250]] /\
  has_shape 2 2 [[0; 250]; [15; 250]] /\
  self_draw_heatmap (V := Fake.demo) [(1, 1, 3, 3)]
    (set_heatmap [[0; 250]; [15; 250]] Fake.app0) []
  = (Return tt, set_heatmap [[0; 250]; [15; 255]] Fake.app0, []) /\
  self_draw_heatmap (V := Fake.demo) [(2, 0, 1, 1)]
    (set_heatmap [[0; 250]; [15; 250]] Fake.app0) []
  = (Raise TypeError, set_heatmap [[0; 250]; [15; 250]] Fake.app0, []).
Proof.
  assert (R : pixels_in_range [[0; 250]; [15; 250]]) by (repeat constructor; lia).
  assert (Sh : has_shape 2 2 [[0; 250]; [15; 250]]) by (repeat constructor).
  split; [exact round_half_even_nearest|]. split; [exact R|]. split; [exact Sh|].
  split.
  - exact (box_brightens_the_pixels_it_covers_or_raises (V := Fake.demo) 2 2
             (set_heatmap [[0; 250]; [15; 250]] Fake.app0) 1 1 3 3 []
             round_half_even_nearest R Sh
             ltac:(lia) ltac:(lia) ltac:(lia) ltac:(lia)).
  - exact (box_brightens_the_pixels_it_covers_or_raises (V := Fake.demo) 2 2
             (set_heatmap [[0; 250]; [15; 250]] Fake.app0) 2 0 1 1 []
             round_half_even_nearest R Sh
             ltac:(lia) ltac:(lia) ltac:(lia) ltac:(lia)).
Defined.

(** The schedule in the first turn of a run with the stand-in back end. *)
Lemma heatmap_schedule_of_a_turn_witness :
  outcome_of (iterations (V := Fake.demo) Fake.args0 Fake.conf0 []
                (mkMachine Fake.app0 locals0) []) = Return true /\
  frame_counter (loc (mkMachine Fake.app0 locals0)) = 0 /\
  heatmap (app (state_of (iteration (V := Fake.demo) Fake.args0 Fake.conf0 Fake.tiny (-1)
                            (mkMachine Fake.app0 locals0) [])))
  = snd (draw_run round_half_even (darken_heatmap round_half_even (heatmap Fake.app0))
           (small_boxes
              (loc (state_of (iteration (V := Fake.demo) Fake.args0 Fake.conf0
                                Fake.tiny (-1) (mkMachine Fake.app0 locals0) []))))).
Proof.
  split; [reflexivity|].
  pose proof (heatmap_schedule_of_a_turn (V := Fake.demo) Fake.args0 Fake.conf0 []
                Fake.tiny (-1) Fake.app0 [] eq_refl) as (C & _ & D).
  split; [exact C|]. exact (proj1 (D eq_refl)).
Defined.

(** A run over two frames with a back end that finds nothing: the heatmap
    made by [init] is black and stays so. *)
Lemma still_scene_keeps_the_heatmap_black_witness :
  Cv.nearest (cv_round (Vision := Fake.still)) /\
  black (heatmap (init (V := Fake.still) Fake.tiny 0%nat)) /\
  exists m out',
    start (V := Fake.still) Fake.args0 Fake.conf0
      [(Fake.tiny, -1); (Fake.vga, -1)]
      (init (V := Fake.still) Fake.tiny 0%nat) [] = (Return tt, m, out') /\
    black (heatmap (app m)).
Proof.
  assert (B : black (heatmap (init (V := Fake.still) Fake.tiny 0%nat))).
  { cbn [heatmap init]. unfold Np.zeros_like, black.
    apply Forall_map, Forall_forall. intros row _.
    apply Forall_map, Forall_forall. intros p _. reflexivity. }
  split; [exact round_half_even_nearest|]. split; [exact B|].
  exact (still_scene_keeps_the_heatmap_black (V := Fake.still)
           Fake.args0 Fake.conf0 [(Fake.tiny, -1); (Fake.vga, -1)] _ []
           round_half_even_nearest (fun _ _ _ => eq_refl) eq_refl B).
Defined.

(** An alarm of each kind in one turn: three people for a maximum of two,
    and a least distance of 1.2 for a minimum of 1.5. *)
Example both_alarms_in_one_turn :
  console_of (iteration (V := Fake.crowd) Fake.args0 Fake.conf0 Fake.tiny (-1)
                (mkMachine (init (V := Fake.crowd) Fake.tiny 0%nat) locals0) [])
  = [CountAlarm 3 2; DistanceAlarm (round (12 # 10) 2) (15 # 10)].
Proof.
  destruct (turn_run (V := Fake.crowd) Fake.args0 Fake.conf0 Fake.tiny (-1)
              (mkMachine (init (V := Fake.crowd) Fake.tiny 0%nat) locals0) [])
    as (o & m' & new & E & _ & _ & _ & _ & _ & _ & _ & R).
  change (turn_ragged (V := Fake.crowd) Fake.args0 Fake.tiny
            (app (mkMachine (init (V := Fake.crowd) Fake.tiny 0%nat) locals0)))
    with false in R.
  destruct R as (_ & (f_in & dbs & D) & _ & N & _).
  rewrite E. unfold console_of. cbn [snd]. rewrite N, D. reflexivity.
Qed.
